(** * netchat: checkpoint name conversion and verification fixtures

    A shallow embedding of [convert_checkpoint.py] and
    [verify_forward_pass.py].

    Parameter names are modelled as [string] (sequences of 8-bit characters):
    PyTorch parameter names are ASCII, and on ASCII text the regular
    expression class [\d] is exactly the ten characters [0]..[9]. *)

From Stdlib Require Import String Ascii List Bool Arith Lia ZArith.
From Stdlib Require Import DecimalString.
Import ListNotations.
Open Scope string_scope.

(** * Part I: the program *)

(** ** Python string primitives *)

Module PyStr.

(** [s.startswith(p)] *)
Definition startswith (s p : string) : bool := prefix p s.

(** [sub in s] *)
Fixpoint contains (sub s : string) : bool :=
  match s with
  | "" => prefix sub ""
  | String _ t => prefix sub s || contains sub t
  end.

(** A matcher looks at the text from the current position on and, when the
    pattern matches there, gives the replacement text and the number of
    characters the match consumed. *)
Definition matcher := string -> option (string * nat).

(** The left-to-right scan shared by [str.replace] and [re.sub]: at each
    position the leftmost match is replaced and scanning resumes behind it, so
    matches never overlap.  [skip] counts the characters of the current match
    that are still to be passed over. *)
Fixpoint sub_from (m : matcher) (skip : nat) (s : string) : string :=
  match s with
  | "" => ""
  | String c t =>
      match skip with
      | S k => sub_from m k t
      | O =>
          match m s with
          | Some (out, n) => out ++ sub_from m (Nat.pred n) t
          | None => String c (sub_from m 0 t)
          end
      end
  end.

Definition sub_all (m : matcher) (s : string) : string := sub_from m 0 s.

(** The matcher of a literal, non-empty pattern. *)
Definition literal (old new : string) : matcher :=
  fun s => if prefix old s then Some (new, String.length old) else None.

(** [s.replace("", new)]: Python puts [new] before every character and at
    the end. *)
Fixpoint interleave (new s : string) : string :=
  match s with
  | "" => new
  | String c t => new ++ String c (interleave new t)
  end.

(** [s.replace(old, new)] *)
Definition str_replace (s old new : string) : string :=
  match old with
  | "" => interleave new s
  | _ => sub_all (literal old new) s
  end.

(** [\d] on ASCII text *)
Definition is_digit (c : ascii) : bool :=
  ((48 <=? nat_of_ascii c) && (nat_of_ascii c <=? 57))%nat.

(** Greedy [\d*]: the longest run of digits at the head, and the rest. *)
Fixpoint span_digits (s : string) : string * string :=
  match s with
  | "" => ("", "")
  | String c t =>
      if is_digit c
      then let (d, r) := span_digits t in (String c d, r)
      else ("", s)
  end.

(** The text behind the literal [p] when [s] starts with it. *)
Fixpoint strip_prefix (p s : string) : option string :=
  match p with
  | "" => Some s
  | String a p' =>
      match s with
      | "" => None
      | String b s' => if Ascii.eqb a b then strip_prefix p' s' else None
      end
  end.

(** The pattern [r'blocks\.(\d+)'] with the template [r'block_\1']. *)
Definition blocks_pattern : matcher :=
  fun s =>
    match strip_prefix "blocks." s with
    | None => None
    | Some r =>
        match span_digits r with
        | ("", _) => None
        | (d, _) => Some ("block_" ++ d, 7 + String.length d)
        end
    end.

(** [re.sub(r'blocks\.(\d+)', r'block_\1', s)] *)
Definition re_sub_blocks (s : string) : string := sub_all blocks_pattern s.

End PyStr.
Import PyStr.

(** ** convert_checkpoint.py: [convert_parameter_name] *)

Definition convert_parameter_name (pytorch_name : string) : string :=
  let name := pytorch_name in
  (* Map token embedding *)
  let name :=
    if startswith name "token_embedding." || startswith name "wte."
    then
      let name := str_replace name "token_embedding." "_tokenEmbedding." in
      str_replace name "wte." "_tokenEmbedding."
    else name in
  (* Map lm_head *)
  let name :=
    if startswith name "lm_head."
    then str_replace name "lm_head." "_lmHead."
    else name in
  (* Map transformer blocks: blocks.N -> block_N *)
  let name :=
    if contains "blocks." name then re_sub_blocks name else name in
  (* Map attention projection layers *)
  let name := str_replace name ".attn." "._attn." in
  let name := str_replace name ".q_proj." "._qProj." in
  let name := str_replace name ".k_proj." "._kProj." in
  let name := str_replace name ".v_proj." "._vProj." in
  let name := str_replace name ".out_proj." "._outProj." in
  (* Map MLP layers *)
  let name := str_replace name ".mlp." "._mlp." in
  let name := str_replace name ".fc1." "._fc1." in
  let name := str_replace name ".fc2." "._fc2." in
  (* Map normalization layers *)
  let name := str_replace name ".norm1." "._norm1." in
  let name := str_replace name ".norm2." "._norm2." in
  let name := str_replace name ".final_norm." "._finalNorm." in
  name.

(** The four stages of [convert_parameter_name], named for the proofs. *)

Definition token_embedding_rule (name : string) : string :=
  if startswith name "token_embedding." || startswith name "wte."
  then str_replace (str_replace name "token_embedding." "_tokenEmbedding.")
                   "wte." "_tokenEmbedding."
  else name.

Definition lm_head_rule (name : string) : string :=
  if startswith name "lm_head."
  then str_replace name "lm_head." "_lmHead."
  else name.

Definition blocks_rule (name : string) : string :=
  if contains "blocks." name then re_sub_blocks name else name.

(** The eleven infix replacements, in source order. *)
Definition infix_table : list (string * string) :=
  [ (".attn.", "._attn."); (".q_proj.", "._qProj."); (".k_proj.", "._kProj.");
    (".v_proj.", "._vProj."); (".out_proj.", "._outProj.");
    (".mlp.", "._mlp."); (".fc1.", "._fc1."); (".fc2.", "._fc2.");
    (".norm1.", "._norm1."); (".norm2.", "._norm2.");
    (".final_norm.", "._finalNorm.") ].

Definition infix_rules (name : string) : string :=
  fold_left (fun n r => str_replace n (fst r) (snd r)) infix_table name.

(** ** Python objects, dictionaries and the file system *)

(** The class of an object: [cls_module] is empty for a builtin. *)
Record pyclass := { cls_module : string; cls_name : string }.

Section Objects.

(** Tensors are opaque to both scripts. *)
Context {tensor : Type}.

(** The values [torch.load] can return, as far as the scripts look at them.
    [PyDict] is any instance of [dict] (also of a subclass such as
    [OrderedDict]): it keeps its items in insertion order, and its keys are
    strings, as the parameter names of a state dict are; a dictionary with a
    key of another type, on which [convert_parameter_name] raises, is not
    among these values.  [PyOther] is any other object, with its class. *)
#[warnings="-register-all"] Inductive pyobj : Type :=
| PyDict (items : list (string * pyobj))
| PyTensor (t : tensor)
| PyOther (cls : pyclass).

Definition dict := list (string * pyobj).

Definition dict_keys (d : dict) : list string := map fst d.

(** [k in d] *)
Definition dict_contains (k : string) (d : dict) : bool :=
  existsb (fun kv => String.eqb k (fst kv)) d.

(** [d[k]]; [None] stands for [KeyError]. *)
Fixpoint dict_get (k : string) (d : dict) : option pyobj :=
  match d with
  | [] => None
  | (k', v) :: tl => if String.eqb k k' then Some v else dict_get k tl
  end.

(** [d[k] = v]: an existing key keeps its place and takes the new value, a
    new key goes to the end. *)
Fixpoint dict_set (k : string) (v : pyobj) (d : dict) : dict :=
  match d with
  | [] => [(k, v)]
  | (k', v') :: tl =>
      if String.eqb k k' then (k', v) :: tl else (k', v') :: dict_set k v tl
  end.

Definition isinstance_dict (o : pyobj) : bool :=
  match o with PyDict _ => true | _ => false end.

Definition dict_class : pyclass := {| cls_module := ""; cls_name := "dict" |}.
Definition tensor_class : pyclass :=
  {| cls_module := "torch"; cls_name := "Tensor" |}.

(** [type(o)] *)
Definition type_of (o : pyobj) : pyclass :=
  match o with
  | PyDict _ => dict_class
  | PyTensor _ => tensor_class
  | PyOther c => c
  end.

(** [str(type(o))], e.g. [<class 'list'>] or [<class 'torch.Tensor'>]. *)
Definition type_repr (c : pyclass) : string :=
  "<class '" ++
  (if String.eqb (cls_module c) "" then cls_name c
   else cls_module c ++ "." ++ cls_name c) ++ "'>".

(** A file holds a pickled object or something [torch.load] cannot read. *)
Inductive file : Type :=
| Pickle (o : pyobj)
| Garbage (error : string).

Definition filesystem := list (string * file).

Fixpoint fs_read (fs : filesystem) (path : string) : option file :=
  match fs with
  | [] => None
  | (p, f) :: tl => if String.eqb path p then Some f else fs_read tl path
  end.

(** Writing replaces the whole file. *)
Definition fs_write (fs : filesystem) (path : string) (f : file) : filesystem :=
  (path, f) :: filter (fun pf => negb (String.eqb path (fst pf))) fs.

(** The exceptions the scripts tell apart. *)
Inductive exn : Type :=
| FileNotFoundError (path : string)
| OtherError (message : string).

(** [torch.load(path, map_location='cpu')] *)
Definition torch_load (fs : filesystem) (path : string) : exn + pyobj :=
  match fs_read fs path with
  | None => inl (FileNotFoundError path)
  | Some (Garbage e) => inl (OtherError e)
  | Some (Pickle o) => inr o
  end.

(** [torch.save(o, path)] *)
Definition torch_save (fs : filesystem) (o : pyobj) (path : string) :=
  fs_write fs path (Pickle o).

(** ** convert_checkpoint.py: [convert_checkpoint] *)

(** Which branch of the format test found the state dict. *)
Inductive shape_tag := ViaModel | ViaStateDict | Flat.

Definition shape_message (t : shape_tag) : string :=
  match t with
  | ViaModel => "Loaded checkpoint with metadata (extracting 'model' state dict)"
  | ViaStateDict => "Loaded checkpoint with metadata (extracting 'state_dict')"
  | Flat => "Loaded state dict directly"
  end.

(** Lines 79-93: the state dict of a loaded checkpoint, or [None] where the
    script prints the type and calls [sys.exit(1)].  ['model' in checkpoint]
    followed by [checkpoint['model']] is one lookup here. *)
Definition select_state_dict (checkpoint : pyobj) : option (shape_tag * pyobj) :=
  match checkpoint with
  | PyDict d =>
      match dict_get "model" d with
      | Some m => Some (ViaModel, m)
      | None =>
          match dict_get "state_dict" d with
          | Some sd => Some (ViaStateDict, sd)
          | None => Some (Flat, checkpoint)
          end
      end
  | _ => None
  end.

(** One turn of the loop of lines 99-104. *)
Definition convert_step (acc : dict * list (string * string))
    (item : string * pyobj) : dict * list (string * string) :=
  let (converted_state_dict, conversions) := acc in
  let (old_name, t) := item in
  let new_name := convert_parameter_name old_name in
  let converted_state_dict := dict_set new_name t converted_state_dict in
  let conversions :=
    if negb (String.eqb old_name new_name)
    then (conversions ++ [(old_name, new_name)])%list
    else conversions in
  (converted_state_dict, conversions).

Definition convert_items (items : dict) : dict * list (string * string) :=
  fold_left convert_step items ([], []).

(** What a run leaves behind: the lines printed, the exit status
    ([None]: the function returned) and the file system. *)
Record outcome : Type :=
  { stdout : list string; exit_status : option Z; files : filesystem }.

Definition newline : string := String (ascii_of_nat 10) "".

(** [str(n)] for a length *)
Definition str_of_nat (n : nat) : string :=
  NilEmpty.string_of_uint (Nat.to_uint n).

Fixpoint spaces (n : nat) : string :=
  match n with O => "" | S n' => String " " (spaces n') end.

(** The format [{s:50s}]: left-justified in a field of the given width. *)
Definition ljust (s : string) (width : nat) : string :=
  s ++ spaces (width - String.length s).

Definition conversion_line (c : string * string) : string :=
  "  " ++ ljust (fst c) 50 ++ " -> " ++ snd c.

(** [print(line)] *)
Definition print (out : list string) (line : string) : list string :=
  (out ++ [line])%list.

(** The handler of [except Exception]; the traceback goes to stderr. *)
Definition conversion_failed (out : list string) (message : string)
    (fs : filesystem) : outcome :=
  {| stdout := print out ("Error during conversion: " ++ message);
     exit_status := Some 1%Z; files := fs |}.

Definition convert_checkpoint (fs : filesystem)
    (input_path output_path : string) (verbose : bool) : outcome :=
  let out := print [] ("Loading checkpoint from " ++ input_path ++ "...") in
  match torch_load fs input_path with
  | inl (FileNotFoundError _) =>
      {| stdout := print out ("Error: Input file not found: " ++ input_path);
         exit_status := Some 1%Z; files := fs |}
  | inl (OtherError e) => conversion_failed out e fs
  | inr checkpoint =>
      match select_state_dict checkpoint with
      | None =>
          (* sys.exit(1) raises SystemExit, which [except Exception] does
             not catch *)
          {| stdout :=
               print out ("Unexpected checkpoint type: "
                          ++ type_repr (type_of checkpoint));
             exit_status := Some 1%Z; files := fs |}
      | Some (tag, state_dict) =>
          let out := print out (shape_message tag) in
          match state_dict with
          | PyDict items =>
              let (converted_state_dict, conversions) := convert_items items in
              let out :=
                print out (newline ++ "Converted "
                           ++ str_of_nat (List.length items) ++ " parameters") in
              let out :=
                print out ("Renamed " ++ str_of_nat (List.length conversions)
                           ++ " parameters") in
              let out :=
                if verbose && negb (Nat.eqb (List.length conversions) 0)
                then fold_left print (map conversion_line conversions)
                       (print out (newline ++ "Parameter name conversions:"))
                else out in
              let out :=
                print out (newline ++ "Saving converted checkpoint to "
                           ++ output_path ++ "...") in
              let fs := torch_save fs (PyDict converted_state_dict) output_path in
              {| stdout := print out "✓ Conversion complete!";
                 exit_status := None; files := fs |}
          | other =>
              (* state_dict.items() raises AttributeError *)
              conversion_failed out
                ("'" ++ cls_name (type_of other)
                     ++ "' object has no attribute 'items'") fs
          end
      end
  end.

End Objects.

Arguments pyobj : clear implicits.
Arguments dict : clear implicits.
Arguments file : clear implicits.
Arguments filesystem : clear implicits.
Arguments outcome : clear implicits.

(** ** verify_forward_pass.py *)

(** [os.path.join(a, b)] for a relative, non-empty [b] (POSIX). *)
Definition ends_with_slash (a : string) : bool :=
  match get (String.length a - 1) a with
  | Some c => Ascii.eqb c "/"
  | None => false
  end.

Definition path_join (a b : string) : string :=
  if String.eqb a "" then b
  else if ends_with_slash a then a ++ b
  else a ++ "/" ++ b.

(** A position in an index expression: [i] or [:n]. *)
Inductive index := At (i : Z) | UpTo (n : Z).

(** The tensor library is an excluded collaborator.  What the script relies
    on is taken as given: the state of the process-wide default generator,
    the state [torch.manual_seed] puts it in, and [torch.randint] and
    [torch.randn] as functions of their arguments and of that state, giving
    an error message when they raise and the tensor and the next state
    otherwise.  [shape_repr] and [sample_repr] render [t.shape] and
    [t[idx].tolist()] for the console.  The scripts seed with 42 only, a
    seed [torch.manual_seed] accepts. *)
Record torch_library (tensor : Type) : Type :=
  { generator : Type;
    seed_generator : Z -> generator;
    randint : Z -> Z -> list Z -> generator -> string + tensor * generator;
    randn : list Z -> generator -> string + tensor * generator;
    shape_repr : tensor -> string;
    sample_repr : tensor -> list index -> string + string }.

Arguments generator {tensor} _.
Arguments seed_generator {tensor} _ _.
Arguments randint {tensor} _ _ _ _ _.
Arguments randn {tensor} _ _ _.
Arguments shape_repr {tensor} _ _.
Arguments sample_repr {tensor} _ _ _.

Section Verify.

Context {tensor : Type}.
Variable torch : torch_library tensor.

(** The part of the world the script acts on: the default generator, the
    console, the file system, and the log of what was handed to
    [torch.save]. *)
Record world : Type :=
  { gen : generator torch;
    console : list string;
    disk : filesystem tensor;
    saved : list (string * pyobj tensor) }.

(** Effects persist when an exception is raised. *)
Definition py (A : Type) : Type := world -> (exn + A) * world.

Definition ret {A} (a : A) : py A := fun w => (inr a, w).

Definition bind {A B} (c : py A) (k : A -> py B) : py B :=
  fun w =>
    match c w with
    | (inl e, w') => (inl e, w')
    | (inr a, w') => k a w'
    end.

Definition raise {A} (e : exn) : py A := fun w => (inl e, w).

Notation "x <- c ;; k" := (bind c (fun x => k))
  (at level 61, c at next level, right associativity).
Notation "c ;; k" := (bind c (fun _ => k))
  (at level 61, right associativity).

Definition py_print (line : string) : py unit :=
  fun w => (inr tt, {| gen := gen w; console := print (console w) line;
                       disk := disk w; saved := saved w |}).

Definition set_gen (g : generator torch) (w : world) : world :=
  {| gen := g; console := console w; disk := disk w; saved := saved w |}.

(** [torch.manual_seed(seed)] *)
Definition manual_seed (seed : Z) : py unit :=
  fun w => (inr tt, set_gen (seed_generator torch seed) w).

(** A draw from the default generator. *)
Definition draw (f : generator torch -> string + tensor * generator torch)
  : py tensor :=
  fun w =>
    match f (gen w) with
    | inl message => (inl (OtherError message), w)
    | inr (t, g) => (inr t, set_gen g w)
    end.

Definition torch_randint (low high : Z) (size : list Z) : py tensor :=
  draw (randint torch low high size).

Definition torch_randn (size : list Z) : py tensor :=
  draw (randn torch size).

Definition py_load (path : string) : py (pyobj tensor) :=
  fun w =>
    match torch_load (disk w) path with
    | inl e => (inl e, w)
    | inr o => (inr o, w)
    end.

Definition py_save (o : pyobj tensor) (path : string) : py unit :=
  fun w => (inr tt, {| gen := gen w; console := console w;
                       disk := torch_save (disk w) o path;
                       saved := (saved w ++ [(path, o)])%list |}).

(** [os.makedirs(path, exist_ok=True)]: directories are implicit in the
    file system of the model; the empty path is refused. *)
Definition makedirs (path : string) : py unit :=
  if String.eqb path "" then raise (FileNotFoundError path) else ret tt.

(** [str(t[idx].tolist())] *)
Definition py_sample (t : tensor) (idx : list index) : py string :=
  match sample_repr torch t idx with
  | inl message => raise (OtherError message)
  | inr s => ret s
  end.

Definition create_test_input (seq_len vocab_size seed : Z) : py tensor :=
  manual_seed seed ;;
  input_ids <- torch_randint 0 vocab_size [1%Z; seq_len] ;;
  ret input_ids.

Definition save_tensors (input_ids logits : tensor) (output_dir : string)
  : py unit :=
  makedirs output_dir ;;
  let input_path := path_join output_dir "test_input.pt" in
  let output_path := path_join output_dir "expected_output.pt" in
  py_save (PyTensor input_ids) input_path ;;
  py_save (PyTensor logits) output_path ;;
  py_print ("Saved test input to: " ++ input_path) ;;
  py_print ("  Shape: " ++ shape_repr torch input_ids) ;;
  s <- py_sample input_ids [At 0; UpTo 5] ;;
  py_print ("  Sample values: " ++ s) ;;
  py_print "" ;;
  py_print ("Saved expected output to: " ++ output_path) ;;
  py_print ("  Shape: " ++ shape_repr torch logits) ;;
  s <- py_sample logits [At 0; At 0; UpTo 5] ;;
  py_print ("  Sample logits (first token, first 5 vocab): " ++ s).

(** [str(e)] *)
Definition exn_message (e : exn) : string :=
  match e with
  | FileNotFoundError path =>
      "[Errno 2] No such file or directory: '" ++ path ++ "'"
  | OtherError message => message
  end.

(** The body of the [try] block. *)
Definition verify_body (checkpoint_path output_dir : string) (seq_len : Z)
  : py unit :=
  checkpoint <- py_load checkpoint_path ;;
  let state_dict :=
    match checkpoint with
    | PyDict d =>
        match dict_get "model" d with
        | Some m => m
        | None => checkpoint
        end
    | _ => checkpoint
    end in
  let vocab_size := 32768%Z in
  input_ids <- create_test_input seq_len vocab_size 42 ;;
  let n_embd := 768%Z in
  logits <- torch_randn [1%Z; seq_len; vocab_size] ;;
  save_tensors input_ids logits output_dir ;;
  py_print (newline ++ "✓ Verification data created!") ;;
  py_print (newline ++ "To verify in C#:") ;;
  py_print ("1. Load the checkpoint: CheckpointLoader.LoadIntoModel(model, '"
            ++ checkpoint_path ++ "')") ;;
  py_print ("2. Load test input: torch.load('"
            ++ path_join output_dir "test_input.pt" ++ "')") ;;
  py_print "3. Run forward pass: logits = model.forward(input)" ;;
  py_print ("4. Compare with expected: torch.load('"
            ++ path_join output_dir "expected_output.pt" ++ "')").

(** The exit status ([None]: the function returned) and the world after
    the run. *)
Definition verify_forward_pass (checkpoint_path output_dir : string)
    (seq_len : Z) (w : world) : option Z * world :=
  match (py_print ("Loading checkpoint from " ++ checkpoint_path ++ "...") ;;
         verify_body checkpoint_path output_dir seq_len) w with
  | (inr _, w') => (None, w')
  | (inl e, w') =>
      (* except Exception: print, traceback to stderr, sys.exit(1) *)
      (Some 1%Z, snd (py_print ("Error: " ++ exn_message e) w'))
  end.

(** What a run handed to [torch.save], in order. *)
Definition saved_by (run : world -> option Z * world) (w : world)
  : list (string * pyobj tensor) :=
  skipn (List.length (saved w)) (saved (snd (run w))).

End Verify.

Arguments gen {tensor torch} _.
Arguments console {tensor torch} _.
Arguments disk {tensor torch} _.
Arguments saved {tensor torch} _.
Arguments set_gen {tensor torch} _ _.
Arguments saved_by {tensor torch} _ _.

(** A small stand-in for the tensor library, for running the model: the
    generator is a linear congruential one, and a tensor is described by its
    size and the generator state it was drawn from. *)
Definition lcg_next (g : Z) : Z := ((1103515245 * g + 12345) mod 2147483648)%Z.

Definition lcg_draw (size : list Z) (g : Z) : string + (list Z * Z) * Z :=
  if forallb (fun n => (0 <=? n)%Z) size
  then inr ((size, g), lcg_next g)
  else inl "Trying to create tensor with negative dimension".

Definition lcg_torch : torch_library (list Z * Z) :=
  {| generator := Z;
     seed_generator := fun seed => seed;
     randint := fun low high size g =>
       if (low <? high)%Z then lcg_draw size g
       else inl "random_ expects 'from' to be less than 'to'";
     randn := fun size g => lcg_draw size g;
     shape_repr := fun _ => "torch.Size";
     sample_repr := fun t idx =>
       if forallb (fun n => (0 <? n)%Z) (fst t) then inr "[...]"
       else inl "index 0 is out of bounds" |}.

Definition lcg_world (g : Z) (out : list string)
    (fs : filesystem (list Z * Z)) : world lcg_torch :=
  @Build_world _ lcg_torch g out fs [].

(** * Part II: the vocabulary of the statements *)

(** A matcher consumes at least one character and no more than there are. *)
Definition consumes_input (m : matcher) : Prop :=
  forall s out n, m s = Some (out, n) ->
    exists u r, s = u ++ r /\ String.length u = n /\ u <> "".

(** [back_safe old new w]: no non-empty suffix of [w] can begin with the
    replacement text [new] unless it fits the replaced text [old] as well. *)
Fixpoint back_safe (old new w : string) : bool :=
  match w with
  | "" => true
  | String _ w' =>
      (prefix w old || negb (prefix w new || prefix new w))
      && back_safe old new w'
  end.

Fixpoint all_digits (d : string) : bool :=
  match d with
  | "" => true
  | String c d' => is_digit c && all_digits d'
  end.

(** The pattern matches at the head exactly when the text starts with
    [blocks.] and a digit. *)
Definition block_at (s : string) : bool :=
  match strip_prefix "blocks." s with
  | Some (String c _) => is_digit c
  | _ => false
  end.

(** Any occurrence of [blocks.<digit>]. *)
Fixpoint blocks_occurs (s : string) : bool :=
  match s with
  | "" => false
  | String _ t => block_at s || blocks_occurs t
  end.

Fixpoint no_char (a : ascii) (v : string) : bool :=
  match v with
  | "" => true
  | String c v' => negb (Ascii.eqb a c) && no_char a v'
  end.

Definition apply_table (table : list (string * string)) (name : string) :=
  fold_left (fun n r => str_replace n (fst r) (snd r)) table name.

(** None of the infix source fragments occurs in [s]. *)
Definition infix_free (s : string) : bool :=
  forallb (fun r => negb (contains (fst r) s)) infix_table.

(** The three prefixes the prefix rules test for. *)
Definition rule_prefixes : list string :=
  ["token_embedding."; "wte."; "lm_head."].

(** [inner_safe w a]: no occurrence of [w] can begin inside the text [a],
    whatever follows it. *)
Fixpoint inner_safe (w a : string) : bool :=
  match a with
  | "" => true
  | String _ a' => negb (prefix w a || prefix a w) && inner_safe w a'
  end.

(** The text behind the first character. *)
Definition tail (s : string) : string :=
  match s with "" => "" | String _ t => t end.

(** [is_suffix a s]: the text [s] ends with [a]. *)
Fixpoint is_suffix (a s : string) : bool :=
  String.eqb a s
  || match s with
     | "" => false
     | String _ s' => is_suffix a s'
     end.

(** [inner_ok old w a]: an occurrence of [w] can begin inside the text [a]
    only where [a] ends like the replaced text [old]. *)
Fixpoint inner_ok (old w a : string) : bool :=
  match a with
  | "" => true
  | String _ a' =>
      (negb (prefix w a || prefix a w) || is_suffix a old)
      && inner_ok old w a'
  end.

(** The text begins with a digit. *)
Definition starts_with_digit (w : string) : bool :=
  match w with "" => false | String a _ => is_digit a end.

(** The replacement [r] creates no occurrence of [w]. *)
Definition passes (w : string) (r : string * string) : bool :=
  negb (String.eqb (fst r) "") && back_safe (fst r) (snd r) w
  && inner_ok (fst r) w (tail (snd r)).

(** The block rewrite creates no occurrence of [w]. *)
Definition blocks_passes (w : string) : bool :=
  negb (contains "block_" w) && inner_safe w "lock_"
  && negb (starts_with_digit w).

(** The fragment followed by itself, sharing the dot: [.attn.attn.] *)
Definition doubled (old : string) : string := old ++ tail old.

(** [rebuilt_only_at_end old a]: inside the text [a] the pattern [old] can
    begin only at the last character. *)
Fixpoint rebuilt_only_at_end (old a : string) : bool :=
  match a with
  | "" => true
  | String c a' =>
      (negb (prefix old a || prefix a old)
       || (String.eqb a' "" && prefix a old))
      && rebuilt_only_at_end old a'
  end.

(** The replacement [q] removes its own pattern. *)
Definition own_ok (q : string * string) : bool :=
  negb (String.eqb (fst q) "") && back_safe (fst q) (snd q) (fst q)
  && rebuilt_only_at_end (fst q) (snd q).

(** In a list of replacements applied in order, each removes its own
    pattern, creates no doubled pattern of a later one, and no later one
    brings its pattern back. *)
Fixpoint chain_ok (todo : list (string * string)) : bool :=
  match todo with
  | [] => true
  | q :: tl =>
      own_ok q
      && forallb (fun r => passes (doubled (fst r)) q && passes (fst q) r) tl
      && chain_ok tl
  end.

(** The rules before the infix replacements create no occurrence of [w]. *)
Definition pre_ok (w : string) : bool :=
  blocks_passes w && passes w ("lm_head.", "_lmHead.")
  && passes w ("wte.", "_tokenEmbedding.")
  && passes w ("token_embedding.", "_tokenEmbedding.").

(** No infix source fragment stands twice in a row in [k]. *)
Definition no_repeated_fragment (k : string) : bool :=
  forallb (fun r => negb (contains (doubled (fst r)) k)) infix_table.

(** The keys of a dictionary filled key by key: a key that is already there
    adds nothing. *)
Definition add_key (ks : list string) (k : string) : list string :=
  if existsb (String.eqb k) ks then ks else (ks ++ [k])%list.

(** The keys that the rewrite leaves as they are. *)
Definition unchanged_count {tensor : Type} (items : dict tensor) : nat :=
  List.length
    (filter (fun kv => String.eqb (fst kv) (convert_parameter_name (fst kv)))
            items).

(** The files a run saves, from the sequence length and the output
    directory alone: the generator is seeded with 42, the token ids are drawn
    from it, and the logits from the state the first draw left. *)
Definition fixture_writes {tensor : Type} (torch : torch_library tensor)
    (output_dir : string) (seq_len : Z) : list (string * pyobj tensor) :=
  match randint torch 0 32768 [1%Z; seq_len] (seed_generator torch 42) with
  | inl _ => []
  | inr (input_ids, g) =>
      match randn torch [1%Z; seq_len; 32768%Z] g with
      | inl _ => []
      | inr (logits, _) =>
          if String.eqb output_dir "" then []
          else [(path_join output_dir "test_input.pt", PyTensor input_ids);
                (path_join output_dir "expected_output.pt", PyTensor logits)]
      end
  end.

(** [s.split(sep)] for a one-character separator. *)
Fixpoint split_on (sep : ascii) (s : string) : list string :=
  match s with
  | "" => [""]
  | String c t =>
      if Ascii.eqb c sep then "" :: split_on sep t
      else match split_on sep t with
           | h :: tl => String c h :: tl
           | [] => [String c ""]
           end
  end.

(** The block rule read as a relation between a key and its rewriting: a
    character is copied where the pattern does not match, and where the text
    is [blocks.] followed by a maximal, non-empty run of digits [d] it
    becomes [block_] followed by [d]. *)
Inductive BlocksRewritten : string -> string -> Prop :=
| BR_end : BlocksRewritten "" ""
| BR_copy (c : ascii) (s o : string) :
    block_at (String c s) = false ->
    BlocksRewritten s o -> BlocksRewritten (String c s) (String c o)
| BR_fire (d s o : string) :
    d <> "" -> all_digits d = true -> starts_with_digit s = false ->
    BlocksRewritten s o ->
    BlocksRewritten ("blocks." ++ d ++ s) ("block_" ++ d ++ o).

(** One pass over the key that replaces, wherever it stands, each of the
    two spellings by the target spelling and copies every other character. *)
Inductive TokenRewritten : string -> string -> Prop :=
| TR_end : TokenRewritten "" ""
| TR_copy (c : ascii) (s o : string) :
    prefix "token_embedding." (String c s) = false ->
    prefix "wte." (String c s) = false ->
    TokenRewritten s o -> TokenRewritten (String c s) (String c o)
| TR_long (s o : string) :
    TokenRewritten s o ->
    TokenRewritten ("token_embedding." ++ s) ("_tokenEmbedding." ++ o)
| TR_short (s o : string) :
    TokenRewritten s o ->
    TokenRewritten ("wte." ++ s) ("_tokenEmbedding." ++ o).

(** The two replacements of the rule, one after the other. *)
Definition token_replacements (s : string) : string :=
  str_replace (str_replace s "token_embedding." "_tokenEmbedding.")
              "wte." "_tokenEmbedding.".

(** ** Further vocabulary *)

(** No rule of [convert_parameter_name] applies to [k]: it has none of the
    three prefixes, no [blocks.] followed by a digit, and no infix source
    fragment. *)
Definition matches_no_rule (k : string) : bool :=
  negb (startswith k "token_embedding.") && negb (startswith k "wte.")
  && negb (startswith k "lm_head.") && negb (blocks_occurs k)
  && infix_free k.

(** [head_free h w]: the character [h] stands nowhere in [w], except
    possibly at its very end. *)
Fixpoint head_free (h : ascii) (w : string) : bool :=
  match w with
  | "" => true
  | String c w' =>
      match w' with
      | "" => true
      | _ => negb (Ascii.eqb h c) && head_free h w'
      end
  end.

(** [only_last h t]: the text [t] ends with the character [h] and holds it
    nowhere else. *)
Fixpoint only_last (h : ascii) (t : string) : bool :=
  match t with
  | "" => false
  | String c t' =>
      match t' with
      | "" => Ascii.eqb c h
      | _ => negb (Ascii.eqb h c) && only_last h t'
      end
  end.

(** The replacement [q] never leaves its pattern twice in a row. *)
Definition no_doubled_ok (q : string * string) : bool :=
  match fst q with
  | "" => false
  | String h t => only_last h t
  end
  && back_safe (fst q) (snd q) (doubled (fst q))
  && rebuilt_only_at_end (doubled (fst q)) (snd q)
  && negb (prefix (fst q) (snd q) || prefix (snd q) (fst q)).

(** In a list of replacements applied in order, none leaves its pattern
    twice in a row and no later one brings that back. *)
Fixpoint chain_keeps_single (todo : list (string * string)) : bool :=
  match todo with
  | [] => true
  | q :: tl =>
      no_doubled_ok q && forallb (passes (doubled (fst q))) tl
      && chain_keeps_single tl
  end.

(** The key of an item renamed, its value kept. *)
Definition renamed {tensor : Type} (kv : string * pyobj tensor)
  : string * pyobj tensor :=
  (convert_parameter_name (fst kv), snd kv).

(** The pairs the conversion reports: the keys that change, in input
    order, each with its new name. *)
Definition reported {tensor : Type} (items : dict tensor)
  : list (string * string) :=
  map (fun kv => (fst kv, convert_parameter_name (fst kv)))
      (filter (fun kv => negb (String.eqb (fst kv)
                                 (convert_parameter_name (fst kv))))
              items).

(** The lines that the verbose mode adds to the console. *)
Definition listing (conversions : list (string * string)) : list string :=
  match conversions with
  | [] => []
  | _ => (newline ++ "Parameter name conversions:")
         :: map conversion_line conversions
  end.

(** The console of a run of [verify_forward_pass] that succeeds. *)
Definition verify_console {tensor : Type} (torch : torch_library tensor)
    (checkpoint_path output_dir : string) (input_ids logits : tensor)
    (sample1 sample2 : string) : list string :=
  ["Loading checkpoint from " ++ checkpoint_path ++ "...";
   "Saved test input to: " ++ path_join output_dir "test_input.pt";
   "  Shape: " ++ shape_repr torch input_ids;
   "  Sample values: " ++ sample1;
   "";
   "Saved expected output to: " ++ path_join output_dir "expected_output.pt";
   "  Shape: " ++ shape_repr torch logits;
   "  Sample logits (first token, first 5 vocab): " ++ sample2;
   newline ++ "✓ Verification data created!";
   newline ++ "To verify in C#:";
   "1. Load the checkpoint: CheckpointLoader.LoadIntoModel(model, '"
     ++ checkpoint_path ++ "')";
   "2. Load test input: torch.load('"
     ++ path_join output_dir "test_input.pt" ++ "')";
   "3. Run forward pass: logits = model.forward(input)";
   "4. Compare with expected: torch.load('"
     ++ path_join output_dir "expected_output.pt" ++ "')"].

(** The file system after the two fixtures were saved. *)
Definition with_fixtures {tensor : Type} (fs : filesystem tensor)
    (output_dir : string) (input_ids logits : tensor) : filesystem tensor :=
  torch_save
    (torch_save fs (PyTensor input_ids) (path_join output_dir "test_input.pt"))
    (PyTensor logits) (path_join output_dir "expected_output.pt").

(** * Part III: proofs *)

Lemma convert_parameter_name_stages (k : string) :
  convert_parameter_name k
  = infix_rules (blocks_rule (lm_head_rule (token_embedding_rule k))).
Proof. reflexivity. Qed.

(** ** Basic facts about strings *)

Lemma append_assoc (a b c : string) : (a ++ b) ++ c = a ++ (b ++ c).
Proof. induction a as [|x a IH]; simpl; [reflexivity | now rewrite IH]. Qed.

Lemma length_append (a b : string) :
  String.length (a ++ b) = String.length a + String.length b.
Proof. induction a as [|x a IH]; simpl; [reflexivity | now rewrite IH]. Qed.

Lemma prefix_append (p r : string) : prefix p (p ++ r) = true.
Proof.
  induction p as [|a p IH]; simpl.
  - now destruct r.
  - destruct (ascii_dec a a) as [_|N]; [exact IH | now elim N].
Qed.

Lemma prefix_split (p s : string) :
  prefix p s = true -> exists r, s = p ++ r.
Proof.
  revert s; induction p as [|a p IH]; intros s H.
  - now exists s.
  - destruct s as [|b s]; simpl in H; [discriminate|].
    destruct (ascii_dec a b) as [->|]; [|discriminate].
    destruct (IH _ H) as [r ->]. now exists r.
Qed.

Lemma prefix_cons (a b : ascii) (p s : string) :
  prefix (String a p) (String b s) = true <-> a = b /\ prefix p s = true.
Proof.
  simpl. destruct (ascii_dec a b) as [->|N]; split; intros H.
  - now split.
  - now destruct H.
  - discriminate.
  - now destruct H.
Qed.

Lemma prefix_cons_eq (a b : ascii) (p s : string) :
  prefix (String a p) (String b s) = if Ascii.eqb a b then prefix p s else false.
Proof.
  simpl. destruct (ascii_dec a b) as [->|N].
  - now rewrite Ascii.eqb_refl.
  - apply Ascii.eqb_neq in N. now rewrite N.
Qed.

Lemma prefix_nil_r (p : string) : prefix p "" = true -> p = "".
Proof. now destruct p. Qed.

Lemma prefix_nil_l (s : string) : prefix "" s = true.
Proof. now destruct s. Qed.

Lemma strip_prefix_spec (p s r : string) :
  strip_prefix p s = Some r <-> s = p ++ r.
Proof.
  revert s; induction p as [|a p IH]; intros s; simpl.
  - split; [now intros [= ->] | now intros ->].
  - destruct s as [|b s].
    + split; discriminate.
    + destruct (Ascii.eqb_spec a b) as [->|N].
      * rewrite IH. split; [now intros -> | now intros [= ->]].
      * split; [discriminate | intros [= E _]; now elim N].
Qed.

(** ** The scan: equations and induction principle *)

Section Scan.

Variable m : matcher.

Hypothesis m_ok : consumes_input m.

Lemma sub_from_skip (u r : string) :
  sub_from m (String.length u) (u ++ r) = sub_from m 0 r.
Proof. induction u as [|c u IH]; simpl; [reflexivity | exact IH]. Qed.

Lemma sub_all_miss (c : ascii) (t : string) :
  m (String c t) = None ->
  sub_all m (String c t) = String c (sub_all m t).
Proof. unfold sub_all; simpl; now intros ->. Qed.

Lemma sub_all_hit (u r out : string) :
  u <> "" -> m (u ++ r) = Some (out, String.length u) ->
  sub_all m (u ++ r) = out ++ sub_all m r.
Proof.
  intros Hu H. destruct u as [|c u]; [now elim Hu|].
  unfold sub_all. simpl in *. rewrite H. simpl.
  now rewrite sub_from_skip.
Qed.

(** Every run of the scan is a sequence of misses (the character is copied)
    and hits (the matched text [u] is replaced by [out]). *)
Lemma sub_all_ind (P : string -> string -> Prop) :
  P "" "" ->
  (forall c t, m (String c t) = None ->
     P t (sub_all m t) -> P (String c t) (String c (sub_all m t))) ->
  (forall u r out, u <> "" -> m (u ++ r) = Some (out, String.length u) ->
     P r (sub_all m r) -> P (u ++ r) (out ++ sub_all m r)) ->
  forall s, P s (sub_all m s).
Proof.
  intros Hnil Hmiss Hhit s.
  remember (String.length s) as n eqn:Hn.
  revert s Hn; induction n as [n IH] using lt_wf_ind; intros s Hn.
  destruct s as [|c t]; [exact Hnil|].
  destruct (m (String c t)) as [[out k]|] eqn:E.
  - destruct (m_ok _ _ _ E) as (u & r & Hs & Hk & Hu). subst k.
    rewrite Hs in *. rewrite (sub_all_hit _ _ _ Hu E).
    apply Hhit; trivial.
    apply (IH (String.length r)); trivial.
    rewrite Hn, length_append. destruct u; [now elim Hu | simpl; lia].
  - rewrite (sub_all_miss _ _ E). apply Hmiss; trivial.
    apply (IH (String.length t)); trivial. simpl in Hn; lia.
Qed.

End Scan.

Lemma literal_ok (old new : string) :
  old <> "" -> consumes_input (literal old new).
Proof.
  intros Hold s out n. unfold literal.
  destruct (prefix old s) eqn:E; [|discriminate].
  intros [= <- <-]. destruct (prefix_split _ _ E) as [r ->].
  now exists old, r.
Qed.

Lemma span_digits_spec (s : string) :
  s = fst (span_digits s) ++ snd (span_digits s).
Proof.
  induction s as [|c t IH]; simpl; [reflexivity|].
  destruct (is_digit c); [|reflexivity].
  destruct (span_digits t) as [d r]; simpl in *. now rewrite IH at 1.
Qed.

Lemma blocks_pattern_inv (s out : string) (n : nat) :
  blocks_pattern s = Some (out, n) ->
  exists d r, s = ("blocks." ++ d) ++ r /\ d <> "" /\
              span_digits (d ++ r) = (d, r) /\
              out = "block_" ++ d /\ n = String.length ("blocks." ++ d).
Proof.
  unfold blocks_pattern.
  destruct (strip_prefix "blocks." s) as [r0|] eqn:E; [|discriminate].
  apply strip_prefix_spec in E.
  pose proof (span_digits_spec r0) as Hr0.
  destruct (span_digits r0) as [d r] eqn:Hd; simpl in Hr0.
  destruct d as [|c d]; [discriminate|].
  intros [= <- <-]. exists (String c d), r.
  repeat split; try discriminate.
  - now rewrite E, Hr0, append_assoc.
  - now rewrite <- Hr0.
Qed.

Lemma blocks_pattern_ok : consumes_input blocks_pattern.
Proof.
  intros s out n H.
  destruct (blocks_pattern_inv _ _ _ H) as (d & r & -> & _ & _ & _ & ->).
  exists ("blocks." ++ d), r. repeat split. discriminate.
Qed.

(** ** Prefixes and occurrences *)

Lemma prefix_app_r (w p z : string) :
  prefix w p = true -> prefix w (p ++ z) = true.
Proof.
  revert p; induction w as [|a w IH]; intros p H; [apply prefix_nil_l|].
  destruct p as [|b p]; [discriminate|].
  apply prefix_cons in H as [-> H]. simpl (_ ++ _).
  apply prefix_cons; auto.
Qed.

(** A prefix of [p ++ z] is a prefix of [p] or extends [p]. *)
Lemma prefix_app_cases (w p z : string) :
  prefix w (p ++ z) = true -> prefix w p = true \/ prefix p w = true.
Proof.
  revert w; induction p as [|b p IH]; intros w H.
  - right; apply prefix_nil_l.
  - destruct w as [|a w]; [left; reflexivity|].
    simpl (_ ++ _) in H. apply prefix_cons in H as [-> H].
    destruct (IH _ H); [left | right]; apply prefix_cons; auto.
Qed.

Lemma prefix_same_head (a b : ascii) (p q s : string) :
  prefix (String a p) s = true -> prefix (String b q) s = true -> a = b.
Proof.
  destruct s as [|c s]; [discriminate|].
  intros H1 H2. apply prefix_cons in H1 as [-> _].
  now apply prefix_cons in H2 as [-> _].
Qed.

Lemma contains_here (w s : string) :
  prefix w s = true -> contains w s = true.
Proof. destruct s; simpl; intros ->; reflexivity. Qed.

Lemma contains_later (w : string) (c : ascii) (s : string) :
  contains w s = true -> contains w (String c s) = true.
Proof. simpl; intros ->; apply orb_true_r. Qed.

Lemma contains_app_l (w v s : string) :
  contains w s = true -> contains w (v ++ s) = true.
Proof. induction v; simpl; auto using orb_true_r. intros; rewrite IHv; auto using orb_true_r. Qed.

Lemma contains_none_here (w s : string) :
  contains w s = false -> prefix w s = false.
Proof.
  intros H. destruct (prefix w s) eqn:E; [|reflexivity].
  now rewrite (contains_here _ _ E) in H.
Qed.

Lemma contains_none_tail (w : string) (c : ascii) (s : string) :
  contains w (String c s) = false -> contains w s = false.
Proof. simpl; intros H; now apply orb_false_iff in H. Qed.

Lemma contains_nil (s : string) : contains "" s = true.
Proof. destruct s; reflexivity. Qed.

(** ** Which prefixes a replacement can produce *)

Lemma literal_hit (old new r : string) :
  old <> "" -> sub_all (literal old new) (old ++ r)
               = new ++ sub_all (literal old new) r.
Proof.
  intros H. apply sub_all_hit; trivial.
  unfold literal. now rewrite prefix_append.
Qed.

Lemma literal_miss (old new : string) (c : ascii) (t : string) :
  prefix old (String c t) = false ->
  sub_all (literal old new) (String c t)
  = String c (sub_all (literal old new) t).
Proof. intros H. apply sub_all_miss. unfold literal. now rewrite H. Qed.

(** A prefix seen after the replacement was there before it. *)
Lemma literal_prefix_back (old new w : string) :
  old <> "" -> back_safe old new w = true ->
  forall s, prefix w (sub_all (literal old new) s) = true -> prefix w s = true.
Proof.
  intros Hold. induction w as [|a w IH]; intros Hw s H; [apply prefix_nil_l|].
  cbn [back_safe] in Hw. apply andb_true_iff in Hw as [Hw1 Hw2].
  destruct s as [|c t]; [discriminate|].
  destruct (prefix old (String c t)) eqn:E.
  - destruct (prefix_split _ _ E) as [r Hr]. rewrite Hr in *.
    rewrite (literal_hit _ _ _ Hold) in H.
    apply orb_true_iff in Hw1 as [Hw1|Hw1]; [now apply prefix_app_r|].
    apply negb_true_iff, orb_false_iff in Hw1 as [N1 N2].
    destruct (prefix_app_cases _ _ _ H); congruence.
  - rewrite (literal_miss _ _ _ _ E) in H.
    apply prefix_cons in H as [-> H]. apply prefix_cons; auto.
Qed.

Lemma str_replace_prefix_back (old new w s : string) :
  old <> "" -> back_safe old new w = true ->
  prefix w (str_replace s old new) = true -> prefix w s = true.
Proof.
  intros Hold Hw. destruct old; [now elim Hold|].
  now apply literal_prefix_back.
Qed.

(** A replacement whose pattern does not occur changes nothing. *)
Lemma str_replace_absent (old new s : string) :
  contains old s = false -> str_replace s old new = s.
Proof.
  destruct old as [|a old]; [now rewrite contains_nil|].
  unfold str_replace. induction s as [|c t IH]; intros H; [reflexivity|].
  rewrite literal_miss by now apply contains_none_here.
  now rewrite IH by now apply contains_none_tail in H.
Qed.

Lemma prefix_proper (w p : string) (c : ascii) :
  prefix w (p ++ String c "") = true ->
  prefix (p ++ String c "") w = false -> prefix w p = true.
Proof.
  revert w; induction p as [|b p IH]; intros w H N.
  - destruct w as [|a w]; [reflexivity|].
    simpl (_ ++ _) in *. apply prefix_cons in H as [-> H].
    apply prefix_nil_r in H; subst w.
    simpl in N. now destruct (ascii_dec c c).
  - destruct w as [|a w]; [reflexivity|].
    simpl (_ ++ _) in *. apply prefix_cons in H as [-> H].
    apply prefix_cons; split; trivial. apply IH; trivial.
    destruct (prefix (p ++ String c "") w) eqn:E; trivial.
    rewrite <- N. symmetry. apply prefix_cons; auto.
Qed.

Lemma append_inj_length (u v r r' : string) :
  u ++ r = v ++ r' -> String.length u = String.length v -> u = v /\ r = r'.
Proof.
  revert v; induction u as [|a u IH]; intros [|b v] H L; try discriminate.
  - now split.
  - simpl in *. injection H as -> H. injection L as L.
    destruct (IH _ H L) as [-> ->]. now split.
Qed.

(** ** The indexed-block pattern *)

Lemma is_digit_cases (c : ascii) :
  is_digit c = true ->
  In c ["0"; "1"; "2"; "3"; "4"; "5"; "6"; "7"; "8"; "9"]%char.
Proof.
  destruct c as [[] [] [] [] [] [] [] []]; vm_compute; intros H;
    try discriminate H; auto 20.
Qed.

Ltac digit_cases H :=
  apply is_digit_cases in H; simpl in H;
  repeat (destruct H as [H|H]; [subst|]); [..|contradiction].

Lemma span_digits_all (s d r : string) :
  span_digits s = (d, r) -> all_digits d = true.
Proof.
  revert d r; induction s as [|c t IH]; intros d r; simpl.
  - now intros [= <- <-].
  - destruct (is_digit c) eqn:E.
    + destruct (span_digits t) as [d' r']. intros [= <- <-].
      simpl. rewrite E. now apply (IH d' r').
    + now intros [= <- <-].
Qed.

Lemma blocks_pattern_none (s : string) :
  blocks_pattern s = None <-> block_at s = false.
Proof.
  unfold blocks_pattern, block_at.
  destruct (strip_prefix "blocks." s) as [[|c r]|]; simpl; try tauto.
  destruct (is_digit c); [|now split].
  destruct (span_digits r); split; discriminate.
Qed.

Lemma block_at_prefix (s : string) :
  block_at s = true <->
  exists c, is_digit c = true /\ prefix ("blocks." ++ String c "") s = true.
Proof.
  unfold block_at. split.
  - destruct (strip_prefix "blocks." s) as [[|c r]|] eqn:E; try discriminate.
    intros H. exists c. split; trivial.
    apply strip_prefix_spec in E. subst s.
    change ("blocks." ++ String c r) with (("blocks." ++ String c "") ++ r).
    apply prefix_append.
  - intros (c & Hc & H). apply prefix_split in H as [r ->].
    exact Hc.
Qed.

Lemma re_sub_blocks_miss (c : ascii) (t : string) :
  block_at (String c t) = false ->
  re_sub_blocks (String c t) = String c (re_sub_blocks t).
Proof. intros H. apply sub_all_miss. now apply blocks_pattern_none. Qed.

Lemma re_sub_blocks_ind (P : string -> string -> Prop) :
  P "" "" ->
  (forall c t, block_at (String c t) = false ->
     P t (re_sub_blocks t) -> P (String c t) (String c (re_sub_blocks t))) ->
  (forall d r, d <> "" -> all_digits d = true ->
     span_digits (d ++ r) = (d, r) ->
     re_sub_blocks ("blocks." ++ d ++ r) = "block_" ++ d ++ re_sub_blocks r ->
     P r (re_sub_blocks r) ->
     P ("blocks." ++ d ++ r) ("block_" ++ d ++ re_sub_blocks r)) ->
  forall s, P s (re_sub_blocks s).
Proof.
  intros Hnil Hmiss Hhit. unfold re_sub_blocks.
  apply (sub_all_ind _ blocks_pattern_ok); trivial.
  - intros c t E. now apply Hmiss, blocks_pattern_none.
  - intros u r out Hu E IH.
    pose proof (sub_all_hit _ _ _ _ Hu E) as Hit.
    destruct (blocks_pattern_inv _ _ _ E) as (d & r' & Hs & Hd & Sp & -> & L).
    destruct (append_inj_length _ _ _ _ Hs L) as [-> <-].
    rewrite !append_assoc in *. apply Hhit; trivial.
    now apply (span_digits_all _ _ _ Sp).
Qed.

Lemma re_sub_blocks_hit (s : string) :
  block_at s = true ->
  exists d r, s = "blocks." ++ d ++ r /\ d <> "" /\ all_digits d = true /\
              re_sub_blocks s = "block_" ++ d ++ re_sub_blocks r.
Proof.
  intros H. destruct (blocks_pattern s) as [[out n]|] eqn:E.
  - destruct (blocks_pattern_inv _ _ _ E) as (d & r & Hs & Hd & Sp & -> & L).
    exists d, r. rewrite <- append_assoc, <- Hs. repeat split; trivial.
    + now apply (span_digits_all _ _ _ Sp).
    + unfold re_sub_blocks. rewrite Hs at 1. rewrite <- append_assoc.
      apply sub_all_hit; [discriminate|]. now rewrite <- Hs, E, L.
  - apply blocks_pattern_none in E. congruence.
Qed.

(** A prefix seen after the block rewrite was there before it, unless it
    contains the rewritten text [block_]. *)
Lemma re_sub_blocks_prefix_back (w : string) :
  contains "block_" w = false ->
  forall s, prefix w (re_sub_blocks s) = true -> prefix w s = true.
Proof.
  induction w as [|a w IH]; intros Hw s H; [apply prefix_nil_l|].
  destruct (block_at s) eqn:E; [|destruct s as [|c t]; [discriminate|]].
  - destruct (re_sub_blocks_hit _ E) as (d & r & Hs & _ & _ & R).
    rewrite R in H. rewrite Hs.
    destruct (prefix_app_cases _ "block_" _ H) as [H1|H1].
    + change "blocks." with ("block" ++ "s."). rewrite append_assoc.
      apply prefix_app_r. apply (prefix_proper _ "block" "_"); trivial.
      now apply contains_none_here.
    + apply contains_here in H1. congruence.
  - rewrite (re_sub_blocks_miss _ _ E) in H.
    apply prefix_cons in H as [-> H]. apply prefix_cons. split; trivial.
    apply IH; trivial. now apply contains_none_tail in Hw.
Qed.

Lemma block_at_head (c : ascii) (t : string) :
  block_at (String c t) = true -> c = "b"%char.
Proof.
  intros H. apply block_at_prefix in H as (d & _ & H).
  simpl (_ ++ _) in H. now apply prefix_cons in H as [<- _].
Qed.

Lemma blocks_occurs_app_l (v z : string) :
  blocks_occurs z = true -> blocks_occurs (v ++ z) = true.
Proof.
  intros H. induction v as [|c v IH]; simpl (_ ++ _); trivial.
  cbn [blocks_occurs]. rewrite IH. apply orb_true_r.
Qed.

Lemma blocks_occurs_skip (v z : string) :
  no_char "b" v = true -> blocks_occurs (v ++ z) = blocks_occurs z.
Proof.
  induction v as [|c v IH]; intros H; simpl (_ ++ _); trivial.
  simpl in H. apply andb_true_iff in H as [Hc Hv].
  cbn [blocks_occurs]. rewrite (IH Hv).
  destruct (block_at (String c (v ++ z))) eqn:E; trivial.
  apply block_at_head in E. subst c. discriminate.
Qed.

Lemma all_digits_no_b (d : string) :
  all_digits d = true -> no_char "b" d = true.
Proof.
  induction d as [|c d IH]; simpl; trivial.
  intros H. apply andb_true_iff in H as [Hc Hd]. rewrite (IH Hd).
  digit_cases Hc; reflexivity.
Qed.

Lemma block_at_contains (s : string) :
  block_at s = true -> contains "blocks." s = true.
Proof.
  intros H. apply block_at_prefix in H as (c & _ & H).
  apply prefix_split in H as [r ->]. now destruct r.
Qed.

Lemma blocks_occurs_contains (s : string) :
  blocks_occurs s = true -> contains "blocks." s = true.
Proof.
  induction s as [|c t IH]; [discriminate|].
  cbn [blocks_occurs]. intros H. apply orb_true_iff in H as [H|H].
  - now apply block_at_contains.
  - now apply contains_later, IH.
Qed.

(** Where the pattern does not occur the substitution changes nothing. *)
Lemma re_sub_blocks_absent (s : string) :
  blocks_occurs s = false -> re_sub_blocks s = s.
Proof.
  induction s as [|c t IH]; [reflexivity|].
  cbn [blocks_occurs]. intros H. apply orb_false_iff in H as [H1 H2].
  now rewrite re_sub_blocks_miss, IH.
Qed.

Lemma blocks_rule_absent (s : string) :
  blocks_occurs s = false -> blocks_rule s = s.
Proof.
  intros H. unfold blocks_rule. rewrite (re_sub_blocks_absent _ H).
  now destruct (contains _ _).
Qed.

Lemma block_probe_safe (c : ascii) :
  is_digit c = true -> contains "block_" ("blocks." ++ String c "") = false.
Proof. intros H. digit_cases H; reflexivity. Qed.

(** After the substitution no match is left. *)
Lemma re_sub_blocks_clean (s : string) :
  blocks_occurs (re_sub_blocks s) = false.
Proof.
  apply (re_sub_blocks_ind (fun _ o => blocks_occurs o = false)); trivial.
  - intros c t E IH. cbn [blocks_occurs]. rewrite IH, orb_false_r.
    destruct (block_at (String c (re_sub_blocks t))) eqn:A; trivial.
    apply block_at_prefix in A as (d & Hd & A).
    rewrite <- (re_sub_blocks_miss _ _ E) in A.
    apply re_sub_blocks_prefix_back in A; [|now apply block_probe_safe].
    rewrite <- E. symmetry. apply block_at_prefix. eauto.
  - intros d r _ Hd _ _ IH.
    change ("block_" ++ d ++ re_sub_blocks r)
      with (String "b" ("lock_" ++ d ++ re_sub_blocks r)).
    cbn [blocks_occurs].
    replace (block_at _) with false by reflexivity.
    rewrite blocks_occurs_skip by reflexivity.
    now rewrite blocks_occurs_skip by now apply all_digits_no_b.
Qed.

Lemma blocks_rule_clean (s : string) : blocks_occurs (blocks_rule s) = false.
Proof.
  unfold blocks_rule. destruct (contains "blocks." s) eqn:E.
  - apply re_sub_blocks_clean.
  - destruct (blocks_occurs s) eqn:O; trivial.
    apply blocks_occurs_contains in O. congruence.
Qed.

Lemma blocks_rule_prefix_back (w s : string) :
  contains "block_" w = false ->
  prefix w (blocks_rule s) = true -> prefix w s = true.
Proof.
  intros Hw. unfold blocks_rule. destruct (contains "blocks." s); trivial.
  now apply re_sub_blocks_prefix_back.
Qed.

(** A literal replacement whose new text has no [b] creates no match of the
    block pattern. *)
Lemma literal_blocks_occurs_back (old new : string) :
  old <> "" -> no_char "b" new = true ->
  (forall c, is_digit c = true ->
     back_safe old new ("blocks." ++ String c "") = true) ->
  forall s, blocks_occurs (sub_all (literal old new) s) = true ->
            blocks_occurs s = true.
Proof.
  intros Hold Hb Hsafe s.
  apply (sub_all_ind _ (literal_ok old new Hold)
           (fun s o => blocks_occurs o = true -> blocks_occurs s = true));
    trivial.
  - intros c t E IH. cbn [blocks_occurs]. intros H.
    apply orb_true_iff in H as [H|H]; [|rewrite IH; auto using orb_true_r].
    apply block_at_prefix in H as (d & Hd & H).
    rewrite <- (sub_all_miss _ _ _ E) in H.
    apply literal_prefix_back in H; auto.
    replace (block_at _) with true; trivial.
    symmetry. apply block_at_prefix. eauto.
  - intros u r out _ E IH H. unfold literal in E.
    destruct (prefix old (u ++ r)); [|discriminate]. injection E as <- _.
    rewrite blocks_occurs_skip in H by trivial.
    now apply blocks_occurs_app_l, IH.
Qed.

(** ** The rule stages of [convert_parameter_name] *)

Lemma apply_table_prefix_back (table : list (string * string)) (w : string) :
  Forall (fun r => fst r <> "" /\ back_safe (fst r) (snd r) w = true) table ->
  forall s, prefix w (apply_table table s) = true -> prefix w s = true.
Proof.
  induction 1 as [|[old new] tl [Hold Hw] _ IH]; intros s H; trivial.
  simpl in *. apply IH in H. now apply str_replace_prefix_back in H.
Qed.

Lemma apply_table_blocks_back (table : list (string * string)) :
  Forall (fun r => fst r <> "" /\ no_char "b" (snd r) = true /\
            forall c, is_digit c = true ->
              back_safe (fst r) (snd r) ("blocks." ++ String c "") = true)
         table ->
  forall s, blocks_occurs (apply_table table s) = true ->
            blocks_occurs s = true.
Proof.
  induction 1 as [|[old new] tl (Hold & Hb & Hw) _ IH]; intros s H; trivial.
  simpl in *. apply IH in H. destruct old; [now elim Hold|].
  now apply literal_blocks_occurs_back in H.
Qed.

Lemma apply_table_absent (table : list (string * string)) (s : string) :
  forallb (fun r => negb (contains (fst r) s)) table = true ->
  apply_table table s = s.
Proof.
  induction table as [|[old new] tl IH]; simpl; trivial.
  intros H. apply andb_true_iff in H as [H1 H2].
  apply negb_true_iff in H1. rewrite (str_replace_absent _ _ _ H1). auto.
Qed.

Lemma infix_rules_absent (s : string) :
  infix_free s = true -> infix_rules s = s.
Proof. apply apply_table_absent. Qed.

Ltac table_facts :=
  unfold infix_table;
  repeat (apply Forall_cons; [repeat split; try discriminate; try reflexivity|]);
  try apply Forall_nil.

Lemma infix_rules_prefix_back (w s : string) :
  contains "._" w = false ->
  prefix w (infix_rules s) = true -> prefix w s = true.
Proof.
  intros Hw. apply apply_table_prefix_back.
  assert (G : forall x y,
            back_safe (String "." x) (String "." (String "_" y)) w = true).
  { intros x y. induction w as [|a w IH]; trivial.
    cbn [back_safe]. rewrite IH by now apply contains_none_tail in Hw.
    rewrite andb_true_r. apply contains_none_here in Hw.
    rewrite !prefix_cons_eq in *.
    rewrite (Ascii.eqb_sym a "."). destruct (Ascii.eqb "." a); trivial.
    destruct w as [|b w]; [now rewrite prefix_nil_l|].
    rewrite !prefix_cons_eq in *. rewrite prefix_nil_l in Hw.
    rewrite (Ascii.eqb_sym b "_").
    destruct (Ascii.eqb "_" b); [discriminate | apply orb_true_r]. }
  table_facts; apply G.
Qed.

Lemma infix_rules_blocks_back (s : string) :
  blocks_occurs (infix_rules s) = true -> blocks_occurs s = true.
Proof.
  apply apply_table_blocks_back.
  table_facts; intros c Hc; digit_cases Hc; reflexivity.
Qed.

(** The token-embedding rule either leaves the key alone, because it has
    neither prefix, or produces a key that starts with an underscore. *)
Lemma token_embedding_rule_cases (k : string) :
  (startswith k "token_embedding." = false /\ startswith k "wte." = false /\
   token_embedding_rule k = k)
  \/ prefix "_" (token_embedding_rule k) = true.
Proof.
  unfold token_embedding_rule.
  destruct (startswith k "token_embedding.") eqn:E1.
  - right. apply prefix_split in E1 as [r ->]. simpl orb. cbv iota.
    unfold str_replace. rewrite literal_hit by discriminate. reflexivity.
  - destruct (startswith k "wte.") eqn:E2; [|now left].
    right. apply prefix_split in E2 as [r ->]. simpl orb. cbv iota.
    unfold str_replace at 2.
    change ("wte." ++ r) with (String "w" (String "t" (String "e" (String "." r)))).
    rewrite !literal_miss by reflexivity.
    unfold str_replace.
    change (String "w" (String "t" (String "e" (String "." ?x))))
      with ("wte." ++ x).
    rewrite literal_hit by discriminate. reflexivity.
Qed.

Lemma lm_head_rule_cases (n : string) :
  (startswith n "lm_head." = false /\ lm_head_rule n = n)
  \/ prefix "_" (lm_head_rule n) = true.
Proof.
  unfold lm_head_rule. destruct (startswith n "lm_head.") eqn:E; [|now left].
  right. apply prefix_split in E as [r ->].
  unfold str_replace. rewrite literal_hit by discriminate. reflexivity.
Qed.

(** A converted key never starts with one of them. *)
Lemma converted_no_rule_prefix (k p : string) :
  In p rule_prefixes -> startswith (convert_parameter_name k) p = false.
Proof.
  intros Hp. unfold startswith.
  destruct (prefix p (convert_parameter_name k)) eqn:E; trivial. exfalso.
  rewrite convert_parameter_name_stages in E.
  assert (E' : prefix p (lm_head_rule (token_embedding_rule k)) = true).
  { simpl in Hp.
    destruct Hp as [<-|[<-|[<-|[]]]];
      apply infix_rules_prefix_back in E; try reflexivity;
      apply blocks_rule_prefix_back in E; trivial. }
  clear E.
  assert (U : forall s, prefix "_" s = true -> prefix p s = true -> False).
  { intros s H1 H2. simpl in Hp.
    destruct Hp as [<-|[<-|[<-|[]]]];
      discriminate (prefix_same_head _ _ _ _ _ H1 H2). }
  destruct (lm_head_rule_cases (token_embedding_rule k)) as [[L1 L2]|L];
    [|now apply (U _ L)].
  rewrite L2 in E'.
  destruct (token_embedding_rule_cases k) as [(T1 & T2 & T3)|T];
    [|now apply (U _ T)].
  rewrite T3 in *. unfold startswith in *. simpl in Hp.
  destruct Hp as [<-|[<-|[<-|[]]]]; congruence.
Qed.

Lemma converted_blocks_free (k : string) :
  blocks_occurs (convert_parameter_name k) = false.
Proof.
  rewrite convert_parameter_name_stages.
  destruct (blocks_occurs (infix_rules _)) eqn:E; trivial.
  apply infix_rules_blocks_back in E. now rewrite blocks_rule_clean in E.
Qed.

(** The two prefix rules and the block rule leave every converted key as it
    is; only the infix replacements can still apply to it. *)
Lemma convert_converted (k : string) :
  convert_parameter_name (convert_parameter_name k)
  = infix_rules (convert_parameter_name k).
Proof.
  rewrite (convert_parameter_name_stages (convert_parameter_name k)).
  unfold token_embedding_rule.
  rewrite !converted_no_rule_prefix by (simpl; auto). simpl orb. cbv iota.
  unfold lm_head_rule.
  rewrite converted_no_rule_prefix by (simpl; auto).
  now rewrite blocks_rule_absent by apply converted_blocks_free.
Qed.

(** ** Which occurrences a replacement can produce *)

Lemma contains_app_inner (w a z : string) :
  inner_safe w a = true -> contains w (a ++ z) = contains w z.
Proof.
  induction a as [|c a IH]; intros H; trivial.
  cbn [inner_safe] in H. apply andb_true_iff in H as [H1 H2].
  apply negb_true_iff, orb_false_iff in H1 as [N1 N2].
  simpl (_ ++ _). cbn [contains]. rewrite (IH H2).
  destruct (prefix w (String c (a ++ z))) eqn:E; trivial.
  change (String c (a ++ z)) with (String c a ++ z) in E.
  destruct (prefix_app_cases _ _ _ E); congruence.
Qed.

Lemma is_suffix_split (a s : string) :
  is_suffix a s = true -> exists p, s = p ++ a.
Proof.
  induction s as [|c s IH]; simpl; intros H.
  - rewrite orb_false_r in H. apply String.eqb_eq in H. now exists "".
  - apply orb_true_iff in H as [H|H].
    + apply String.eqb_eq in H. now exists "".
    + destruct (IH H) as [p ->]. now exists (String c p).
Qed.

Lemma contains_app_inner_ok (old w a z : string) :
  inner_ok old w a = true -> contains w (a ++ z) = true ->
  contains w z = true \/
  exists p a', old = p ++ a' /\ prefix w (a' ++ z) = true.
Proof.
  induction a as [|c a IH]; intros H C; [now left|].
  cbn [inner_ok] in H. apply andb_true_iff in H as [H1 H2].
  simpl (_ ++ _) in C. cbn [contains] in C.
  apply orb_true_iff in C as [C|C]; [|now apply IH].
  apply orb_true_iff in H1 as [H1|H1].
  - apply negb_true_iff, orb_false_iff in H1 as [N1 N2].
    change (String c (a ++ z)) with (String c a ++ z) in C.
    destruct (prefix_app_cases _ _ _ C); congruence.
  - right. destruct (is_suffix_split _ _ H1) as [p ->]. now exists p, (String c a).
Qed.

Lemma back_safe_suffix (old new u v : string) :
  back_safe old new (u ++ v) = true -> back_safe old new v = true.
Proof.
  induction u as [|c u IH]; trivial.
  simpl (_ ++ _). cbn [back_safe]. intros H.
  apply andb_true_iff in H as [_ H]. auto.
Qed.

Lemma prefix_app_cancel (a u v : string) :
  prefix (a ++ u) (a ++ v) = prefix u v.
Proof.
  induction a as [|c a IH]; trivial.
  simpl (_ ++ _). now rewrite prefix_cons_eq, Ascii.eqb_refl.
Qed.

(** An occurrence seen after a literal replacement was there before it. *)
Lemma literal_contains_back (old new w : string) :
  old <> "" -> back_safe old new w = true ->
  inner_ok old w (tail new) = true ->
  forall s, contains w (sub_all (literal old new) s) = true ->
            contains w s = true.
Proof.
  intros Hold Hb Hi s.
  apply (sub_all_ind _ (literal_ok old new Hold)
           (fun s o => contains w o = true -> contains w s = true)); trivial.
  - intros c t E IH. cbn [contains]. intros H.
    apply orb_true_iff in H as [H|H].
    + rewrite <- (sub_all_miss _ _ _ E) in H.
      apply literal_prefix_back in H; trivial. now rewrite H.
    + rewrite (IH H). apply orb_true_r.
  - intros u r out Hu E IH H.
    assert (Hit : sub_all (literal old new) (u ++ r)
                  = out ++ sub_all (literal old new) r)
      by now apply sub_all_hit.
    unfold literal in E.
    destruct (prefix old (u ++ r)) eqn:P; [|discriminate].
    injection E as <- L.
    apply prefix_split in P as [r' P].
    apply append_inj_length in P as [-> <-]; [|now symmetry].
    destruct new as [|n0 ntl].
    + now apply contains_app_l, IH.
    + simpl (_ ++ _) in H. cbn [contains] in H.
      apply orb_true_iff in H as [H|H].
      * apply contains_here, (literal_prefix_back old (String n0 ntl)); trivial.
        now rewrite Hit.
      * simpl in Hi.
        destruct (contains_app_inner_ok _ _ _ _ Hi H) as [C|(p & a' & Ho & C)].
        { now apply contains_app_l, IH. }
        rewrite Ho, append_assoc. apply contains_app_l, contains_here.
        destruct (prefix_app_cases _ _ _ C) as [C'|C'].
        { now apply prefix_app_r. }
        apply prefix_split in C' as [w2 ->].
        rewrite prefix_app_cancel in *.
        apply literal_prefix_back in C; trivial.
        now apply back_safe_suffix in Hb.
Qed.

(** After a literal replacement whose new text cannot rebuild the pattern,
    the pattern is gone. *)
Lemma literal_clean (old new : string) :
  old <> "" -> back_safe old new old = true -> inner_safe old new = true ->
  forall s, contains old (sub_all (literal old new) s) = false.
Proof.
  intros Hold Hb Hi s.
  apply (sub_all_ind _ (literal_ok old new Hold)
           (fun s o => contains old o = false)).
  - destruct old; [now elim Hold | reflexivity].
  - intros c t E IH. cbn [contains]. rewrite IH, orb_false_r.
    destruct (prefix old (String c (sub_all _ t))) eqn:P; trivial.
    rewrite <- (sub_all_miss _ _ _ E) in P.
    apply literal_prefix_back in P; trivial.
    unfold literal in E. now rewrite P in E.
  - intros u r out _ E IH. unfold literal in E.
    destruct (prefix old (u ++ r)); [|discriminate]. injection E as <- _.
    now rewrite contains_app_inner.
Qed.

Lemma contains_skip_digits (w d z : string) :
  starts_with_digit w = false -> all_digits d = true ->
  contains w (d ++ z) = contains w z.
Proof.
  intros Hw. induction d as [|c d IH]; intros Hd; trivial.
  simpl in Hd. apply andb_true_iff in Hd as [Hc Hd].
  simpl (_ ++ _). cbn [contains]. rewrite (IH Hd).
  destruct w as [|a w]; [now rewrite contains_nil|].
  rewrite prefix_cons_eq. destruct (Ascii.eqb_spec a c) as [->|]; trivial.
  simpl in Hw. congruence.
Qed.

(** An occurrence seen after the block rewrite was there before it. *)
Lemma re_sub_blocks_contains_back (w : string) :
  contains "block_" w = false -> inner_safe w "lock_" = true ->
  starts_with_digit w = false ->
  forall s, contains w (re_sub_blocks s) = true -> contains w s = true.
Proof.
  intros Hb Hi Hd s.
  apply (re_sub_blocks_ind
           (fun s o => contains w o = true -> contains w s = true)); trivial.
  - intros c t E IH. cbn [contains]. intros H.
    apply orb_true_iff in H as [H|H].
    + rewrite <- (re_sub_blocks_miss _ _ E) in H.
      apply re_sub_blocks_prefix_back in H; trivial. now rewrite H.
    + rewrite (IH H). apply orb_true_r.
  - intros d r _ Hall _ Hit IH H.
    change ("block_" ++ d ++ re_sub_blocks r)
      with (String "b" ("lock_" ++ d ++ re_sub_blocks r)) in H.
    cbn [contains] in H. apply orb_true_iff in H as [H|H].
    + apply contains_here, re_sub_blocks_prefix_back; trivial.
      now rewrite Hit.
    + rewrite (contains_app_inner _ _ _ Hi) in H.
      rewrite contains_skip_digits in H by trivial.
      now apply contains_app_l, contains_app_l, IH.
Qed.

Lemma str_replace_contains_back (old new w s : string) :
  passes w (old, new) = true ->
  contains w (str_replace s old new) = true -> contains w s = true.
Proof.
  unfold passes. simpl. intros H.
  apply andb_true_iff in H as [H H3]. apply andb_true_iff in H as [H1 H2].
  apply negb_true_iff, String.eqb_neq in H1.
  destruct old; [now elim H1|]. now apply literal_contains_back.
Qed.

Lemma apply_table_contains_back (table : list (string * string)) (w : string) :
  forallb (passes w) table = true ->
  forall s, contains w (apply_table table s) = true -> contains w s = true.
Proof.
  induction table as [|[old new] tl IH]; simpl; intros H s C; trivial.
  apply andb_true_iff in H as [H1 H2].
  apply (IH H2) in C. now apply str_replace_contains_back in C.
Qed.

Lemma blocks_rule_contains_back (w s : string) :
  blocks_passes w = true ->
  contains w (blocks_rule s) = true -> contains w s = true.
Proof.
  unfold blocks_passes. intros H.
  apply andb_true_iff in H as [H H3]. apply andb_true_iff in H as [H1 H2].
  apply negb_true_iff in H1, H3.
  unfold blocks_rule. destruct (contains "blocks." s); trivial.
  now apply re_sub_blocks_contains_back.
Qed.

Lemma blocks_rule_re_sub (s : string) : blocks_rule s = re_sub_blocks s.
Proof.
  unfold blocks_rule. destruct (contains "blocks." s) eqn:E; trivial.
  symmetry. apply re_sub_blocks_absent.
  destruct (blocks_occurs s) eqn:O; trivial.
  apply blocks_occurs_contains in O. congruence.
Qed.

(** ** Idempotence on keys without a repeated fragment *)

Lemma contains_app_rebuilt (old a z : string) :
  rebuilt_only_at_end old a = true -> contains old (a ++ z) = true ->
  contains old z = true \/ prefix (tail old) z = true.
Proof.
  induction a as [|c a IH]; intros H C; [now left|].
  cbn [rebuilt_only_at_end] in H. apply andb_true_iff in H as [H1 H2].
  simpl (_ ++ _) in C. cbn [contains] in C.
  apply orb_true_iff in C as [C|C]; [|now apply IH].
  apply orb_true_iff in H1 as [H1|H1].
  - apply negb_true_iff, orb_false_iff in H1 as [N1 N2].
    change (String c (a ++ z)) with (String c a ++ z) in C.
    destruct (prefix_app_cases _ _ _ C); congruence.
  - apply andb_true_iff in H1 as [E P]. apply String.eqb_eq in E. subst a.
    right. destruct old as [|h tl]; [apply prefix_nil_l|].
    simpl (_ ++ _) in C. rewrite prefix_cons_eq in C, P.
    destruct (Ascii.eqb h c); [exact C | discriminate].
Qed.

(** After the replacement the pattern is gone, unless the text held the
    pattern twice in a row. *)
Lemma literal_clean_unless_doubled (old new : string) :
  old <> "" -> back_safe old new old = true ->
  rebuilt_only_at_end old new = true ->
  forall s, contains (doubled old) s = false ->
            contains old (sub_all (literal old new) s) = false.
Proof.
  intros Hold Hb Hr s.
  apply (sub_all_ind _ (literal_ok old new Hold)
           (fun s o => contains (doubled old) s = false ->
                       contains old o = false)).
  - intros _. destruct old; [now elim Hold | reflexivity].
  - intros c t E IH H. cbn [contains].
    rewrite IH by now apply contains_none_tail in H.
    rewrite orb_false_r.
    destruct (prefix old (String c (sub_all _ t))) eqn:P; trivial.
    rewrite <- (sub_all_miss _ _ _ E) in P.
    apply literal_prefix_back in P; trivial.
    unfold literal in E. now rewrite P in E.
  - intros u r out _ E IH H. unfold literal in E.
    destruct (prefix old (u ++ r)) eqn:P; [|discriminate].
    injection E as <- L.
    apply prefix_split in P as [r' P].
    apply append_inj_length in P as [-> <-]; [|now symmetry].
    assert (Hr' : contains (doubled old) r = false).
    { destruct (contains (doubled old) r) eqn:C; trivial.
      now rewrite (contains_app_l _ old _ C) in H. }
    destruct (contains old (new ++ sub_all _ r)) eqn:C; trivial.
    destruct (contains_app_rebuilt _ _ _ Hr C) as [C'|C'].
    + now rewrite IH in C'.
    + apply literal_prefix_back in C'; trivial.
      * apply prefix_split in C' as [r2 ->].
        rewrite <- append_assoc in H. fold (doubled old) in H.
        now rewrite (contains_here _ _ (prefix_append _ _)) in H.
      * destruct old as [|h tl]; [now elim Hold|].
        now apply (back_safe_suffix _ _ (String h "") tl).
Qed.

Lemma str_replace_clean_unless_doubled (q : string * string) (s : string) :
  own_ok q = true -> contains (doubled (fst q)) s = false ->
  contains (fst q) (str_replace s (fst q) (snd q)) = false.
Proof.
  unfold own_ok. destruct q as [old new]. simpl. intros H.
  apply andb_true_iff in H as [H H3]. apply andb_true_iff in H as [H1 H2].
  apply negb_true_iff, String.eqb_neq in H1.
  destruct old; [now elim H1|]. now apply literal_clean_unless_doubled.
Qed.

Lemma apply_table_clean (todo : list (string * string)) :
  chain_ok todo = true ->
  forall s,
    forallb (fun r => negb (contains (doubled (fst r)) s)) todo = true ->
    forallb (fun r => negb (contains (fst r) (apply_table todo s))) todo = true.
Proof.
  induction todo as [|q tl IH]; intros C s H; trivial.
  cbn [chain_ok] in C. apply andb_true_iff in C as [C C3].
  apply andb_true_iff in C as [C1 C2].
  cbn [forallb] in H. apply andb_true_iff in H as [H1 H2].
  apply negb_true_iff in H1.
  cbn [forallb]. change (apply_table (q :: tl) s)
    with (apply_table tl (str_replace s (fst q) (snd q))).
  apply andb_true_iff. split.
  - apply negb_true_iff.
    destruct (contains (fst q) (apply_table tl _)) eqn:E; trivial.
    apply apply_table_contains_back in E.
    + now rewrite str_replace_clean_unless_doubled in E.
    + apply forallb_forall. intros r Hr.
      rewrite forallb_forall in C2. specialize (C2 r Hr).
      now apply andb_true_iff in C2 as [_ C2].
  - apply (IH C3). apply forallb_forall. intros r Hr.
    rewrite forallb_forall in C2, H2.
    specialize (H2 r Hr). specialize (C2 r Hr).
    apply andb_true_iff in C2 as [C2 _]. apply negb_true_iff in H2.
    apply negb_true_iff.
    destruct (contains (doubled (fst r)) (str_replace _ _ _)) eqn:E; trivial.
    destruct q as [old new].
    apply str_replace_contains_back in E; trivial. simpl in E. congruence.
Qed.

Lemma pre_rules_contains_back (w k : string) :
  pre_ok w = true ->
  contains w (blocks_rule (lm_head_rule (token_embedding_rule k))) = true ->
  contains w k = true.
Proof.
  unfold pre_ok. intros H C.
  apply andb_true_iff in H as [H H4]. apply andb_true_iff in H as [H H3].
  apply andb_true_iff in H as [H1 H2].
  apply blocks_rule_contains_back in C; trivial.
  assert (C' : contains w (token_embedding_rule k) = true).
  { unfold lm_head_rule in C. destruct (startswith _ "lm_head."); trivial.
    now apply str_replace_contains_back in C. }
  unfold token_embedding_rule in C'. destruct (_ || _); trivial.
  apply str_replace_contains_back in C'; trivial.
  now apply str_replace_contains_back in C'.
Qed.

Lemma converted_infix_free (k : string) :
  no_repeated_fragment k = true ->
  infix_free (convert_parameter_name k) = true.
Proof.
  intros H. rewrite convert_parameter_name_stages.
  apply (apply_table_clean infix_table); [vm_compute; reflexivity|].
  assert (P : forallb (fun r => pre_ok (doubled (fst r))) infix_table = true)
    by (vm_compute; reflexivity).
  unfold no_repeated_fragment in H. rewrite forallb_forall in *.
  intros r Hr. specialize (H r Hr). specialize (P r Hr).
  apply negb_true_iff in H. apply negb_true_iff.
  destruct (contains (doubled (fst r)) (blocks_rule _)) eqn:E; trivial.
  apply pre_rules_contains_back in E; congruence.
Qed.

(** ** C1: idempotence *)

(** C1: converting a converted key again is to change nothing, and the
    code breaks this on the key [a.attn.attn.b].  The rule for [.attn.]
    is written to rename every such component, and renames both when they
    stand apart, as in [a.attn.x.attn.b], where converting again changes
    nothing.  In [a.attn.attn.b] the two occurrences share a dot;
    [str.replace] takes matches that do not overlap, so one pass renames
    the first only, the converted key still holds [.attn.], and a second
    pass renames the other. *)
Theorem c1_repeated_fragment_left_unconverted :
  convert_parameter_name "a.attn.attn.b" = "a._attn.attn.b" /\
  contains ".attn." (convert_parameter_name "a.attn.attn.b") = true /\
  convert_parameter_name (convert_parameter_name "a.attn.attn.b")
    = "a._attn._attn.b" /\
  convert_parameter_name (convert_parameter_name "a.attn.attn.b")
    <> convert_parameter_name "a.attn.attn.b" /\
  convert_parameter_name "a.attn.x.attn.b" = "a._attn.x._attn.b" /\
  convert_parameter_name (convert_parameter_name "a.attn.x.attn.b")
    = convert_parameter_name "a.attn.x.attn.b".
Proof. repeat split; vm_compute; congruence. Qed.

(** Converting again changes nothing once no infix source fragment is left. *)
Lemma idempotent_when_infix_free (k : string) :
  infix_free (convert_parameter_name k) = true ->
  convert_parameter_name (convert_parameter_name k)
  = convert_parameter_name k.
Proof.
  intros H. rewrite convert_converted. now apply infix_rules_absent.
Qed.

(** The keys on which a second conversion changes something all hold one
    of the eleven infix source fragments twice in a row, the two sharing a
    dot (as in [.attn.attn.]): on every other key converting a converted key
    again changes nothing. *)
Lemma idempotent_without_repeated_fragment (k : string) :
  no_repeated_fragment k = true ->
  convert_parameter_name (convert_parameter_name k)
  = convert_parameter_name k.
Proof.
  intros H. now apply idempotent_when_infix_free, converted_infix_free.
Qed.

(** ** Dictionaries *)

Section DictFacts.

Context {tensor : Type}.
Implicit Types (d : dict tensor) (v : pyobj tensor) (k : string).

Lemma dict_get_contains k d :
  dict_contains k d = true <-> exists v, dict_get k d = Some v.
Proof.
  induction d as [|[k' v'] tl IH]; simpl.
  - split; [discriminate | now intros [v H]].
  - destruct (String.eqb k k'); simpl; [|exact IH].
    split; eauto.
Qed.

Lemma dict_get_absent k d :
  dict_contains k d = false <-> dict_get k d = None.
Proof.
  induction d as [|[k' v'] tl IH]; simpl; [now split|].
  destruct (String.eqb k k'); simpl; [|exact IH].
  split; discriminate.
Qed.

Lemma dict_contains_keys k d :
  dict_contains k d = existsb (String.eqb k) (dict_keys d).
Proof. induction d as [|kv tl IH]; simpl; [trivial | now rewrite IH]. Qed.

Lemma dict_keys_set k v d :
  dict_keys (dict_set k v d)
  = if dict_contains k d then dict_keys d else (dict_keys d ++ [k])%list.
Proof.
  induction d as [|[k' v'] tl IH]; simpl; trivial.
  destruct (String.eqb k k'); simpl; trivial.
  rewrite IH. now destruct (dict_contains k tl).
Qed.

End DictFacts.

Lemma fold_print (lines out : list string) :
  fold_left print lines out = (out ++ lines)%list.
Proof.
  revert out; induction lines as [|l lines IH]; intros out; simpl.
  - now rewrite app_nil_r.
  - rewrite IH. unfold print. now rewrite <- app_assoc.
Qed.

(** ** C2: counting keys *)

Lemma existsb_eqb_In (k : string) (ks : list string) :
  existsb (String.eqb k) ks = true <-> In k ks.
Proof.
  rewrite existsb_exists. split.
  - intros (x & Hx & E). apply String.eqb_eq in E. now subst.
  - intros H. exists k. now rewrite String.eqb_refl.
Qed.

Lemma add_key_cases (ks : list string) (k : string) :
  (In k ks /\ add_key ks k = ks) \/
  (~ In k ks /\ add_key ks k = (ks ++ [k])%list).
Proof.
  unfold add_key. destruct (existsb (String.eqb k) ks) eqn:E.
  - left. split; trivial. now apply existsb_eqb_In.
  - right. split; trivial. intros H. apply existsb_eqb_In in H. congruence.
Qed.

Lemma add_keys_In (l acc : list string) (k : string) :
  In k (fold_left add_key l acc) <-> In k acc \/ In k l.
Proof.
  revert acc; induction l as [|x l IH]; intros acc; simpl; [tauto|].
  rewrite IH.
  destruct (add_key_cases acc x) as [[Hin ->]|[Hout ->]].
  - split; [tauto|]. intros [H|[<-|H]]; auto.
  - rewrite in_app_iff. simpl. tauto.
Qed.

Lemma add_keys_NoDup (l acc : list string) :
  NoDup acc -> NoDup (fold_left add_key l acc).
Proof.
  revert acc; induction l as [|x l IH]; intros acc H; simpl; trivial.
  apply IH. destruct (add_key_cases acc x) as [[Hin ->]|[Hout ->]]; trivial.
  apply NoDup_app; trivial.
  - repeat constructor. intros [].
  - intros y Hy [<-|[]]. contradiction.
Qed.

Lemma add_keys_length_le (l acc : list string) :
  List.length (fold_left add_key l acc) <= List.length acc + List.length l.
Proof.
  revert acc; induction l as [|x l IH]; intros acc; simpl; [lia|].
  specialize (IH (add_key acc x)).
  destruct (add_key_cases acc x) as [[Hin E]|[Hout E]]; rewrite E in *.
  - lia.
  - rewrite length_app in IH. simpl in IH. lia.
Qed.

Lemma add_keys_length_eq (l acc : list string) :
  NoDup acc ->
  (List.length (fold_left add_key l acc) = List.length acc + List.length l
   <-> NoDup (acc ++ l)).
Proof.
  revert acc; induction l as [|x l IH]; intros acc H; simpl.
  - rewrite app_nil_r. split; [trivial | lia].
  - destruct (add_key_cases acc x) as [[Hin E]|[Hout E]]; rewrite E.
    + split.
      * pose proof (add_keys_length_le l acc). lia.
      * intros N. apply NoDup_remove_2 in N. elim N.
        apply in_or_app. now left.
    + assert (N : NoDup (acc ++ [x])).
      { apply NoDup_app; trivial.
        - repeat constructor. intros [].
        - intros y Hy [<-|[]]. contradiction. }
      specialize (IH _ N). rewrite length_app, <- app_assoc in IH.
      simpl in IH. rewrite <- IH. split; lia.
Qed.

Section ConvertItems.

Context {tensor : Type}.
Implicit Types (items : dict tensor).

Lemma convert_items_fold items (acc : dict tensor) (cs : list (string * string)) :
  dict_keys (fst (fold_left convert_step items (acc, cs)))
  = fold_left add_key (map convert_parameter_name (dict_keys items))
              (dict_keys acc)
  /\ List.length (snd (fold_left convert_step items (acc, cs)))
       + unchanged_count items
     = List.length cs + List.length items.
Proof.
  revert acc cs; induction items as [|[k v] tl IH]; intros acc cs.
  - simpl. split; [trivial | unfold unchanged_count; simpl; lia].
  - cbn [fold_left convert_step].
    specialize (IH (dict_set (convert_parameter_name k) v acc)
                   (if negb (String.eqb k (convert_parameter_name k))
                    then (cs ++ [(k, convert_parameter_name k)])%list else cs)).
    destruct IH as [IH1 IH2]. split.
    + rewrite IH1. simpl. f_equal. rewrite dict_keys_set. unfold add_key.
      now rewrite dict_contains_keys.
    + unfold unchanged_count in *. simpl.
      destruct (String.eqb k (convert_parameter_name k)); simpl in *.
      * lia.
      * rewrite length_app in IH2. simpl in IH2. lia.
Qed.

Lemma convert_items_keys items :
  dict_keys (fst (convert_items items))
  = fold_left add_key (map convert_parameter_name (dict_keys items)) [].
Proof. apply (convert_items_fold items [] []). Qed.

End ConvertItems.

(** C2, as stated, fails: the two spellings of the token embedding
    are two keys before the rewrite and one key after it, and the tensor of
    the later key silently takes the place of the earlier one. *)
Lemma c2_count_conservation_counterexample :
  let items : dict nat :=
    [("wte.weight", PyTensor 1); ("token_embedding.weight", PyTensor 2)] in
  NoDup (dict_keys items) /\ List.length items = 2 /\
  fst (convert_items items) = [("_tokenEmbedding.weight", PyTensor 2)] /\
  List.length (fst (convert_items items)) <> List.length items.
Proof.
  repeat split.
  - repeat constructor; simpl; intuition discriminate.
  - vm_compute. discriminate.
Qed.

(** C2 (amended): for every state dict with K unique keys the
    converted dict has unique keys, namely the rewritten keys of the input;
    it has at most K of them, and exactly K if and only if no two input keys
    are rewritten to the same name; and the number of renamed keys plus the
    number of unchanged keys is K. *)
Theorem c2_count_conservation (tensor : Type) (items : dict tensor) :
  NoDup (dict_keys items) ->
  NoDup (dict_keys (fst (convert_items items))) /\
  (forall k, In k (dict_keys (fst (convert_items items)))
             <-> exists k0, In k0 (dict_keys items)
                            /\ convert_parameter_name k0 = k) /\
  List.length (fst (convert_items items)) <= List.length items /\
  (List.length (fst (convert_items items)) = List.length items
   <-> NoDup (map convert_parameter_name (dict_keys items))) /\
  List.length (snd (convert_items items)) + unchanged_count items
  = List.length items.
Proof.
  intros _.
  assert (L : forall d : dict tensor, List.length d = List.length (dict_keys d))
    by (intros d; unfold dict_keys; now rewrite length_map).
  pose proof (convert_items_keys items) as K.
  repeat split.
  - rewrite K. apply add_keys_NoDup. constructor.
  - rewrite K, add_keys_In, in_map_iff. intros [[]|(k0 & E & H)]; eauto.
  - rewrite K, add_keys_In, in_map_iff. intros (k0 & H & E); eauto.
  - rewrite (L (fst _)), K, (L items).
    pose proof (add_keys_length_le
                  (map convert_parameter_name (dict_keys items)) []) as B.
    now rewrite length_map in B.
  - rewrite (L (fst _)), K, (L items). intros E.
    apply (proj1 (add_keys_length_eq
                    (map convert_parameter_name (dict_keys items)) []
                    (NoDup_nil _))).
    now rewrite length_map.
  - rewrite (L (fst _)), K, (L items). intros N.
    apply (proj2 (add_keys_length_eq
                    (map convert_parameter_name (dict_keys items)) []
                    (NoDup_nil _))) in N.
    now rewrite length_map in N.
  - apply (convert_items_fold items [] []).
Qed.

Lemma c2_count_conservation_witness :
  let items : dict nat :=
    [("wte.weight", PyTensor 1); ("blocks.0.attn.q_proj.weight", PyTensor 2);
     ("ln_f.weight", PyTensor 3)] in
  List.length (fst (convert_items items)) <= List.length items /\
  List.length (snd (convert_items items)) + unchanged_count items
  = List.length items.
Proof.
  intros items.
  assert (N : NoDup (dict_keys items))
    by (repeat constructor; simpl; intuition discriminate).
  destruct (c2_count_conservation nat items N) as (_ & _ & H1 & _ & H2).
  now split.
Defined.

(** ** C4: the rewrite scenario *)

(** C4: the four keys of the scenario are rewritten as stated. *)
Theorem c4_rewrite_scenario :
  convert_parameter_name "wte.weight" = "_tokenEmbedding.weight" /\
  convert_parameter_name "blocks.12.attn.q_proj.weight"
    = "block_12._attn._qProj.weight" /\
  convert_parameter_name "lm_head.weight" = "_lmHead.weight" /\
  convert_parameter_name "transformer.ln_f.weight" = "transformer.ln_f.weight".
Proof. repeat split; vm_compute; reflexivity. Qed.

(** ** C5: the order of the container shapes *)

(** C5: for every loaded mapping the ['model'] entry is looked for
    first, then ['state_dict'], and otherwise the whole mapping is the state
    dict; the first match wins whatever else the mapping holds and wherever
    it stands.  A container with a ['model'] and an ['optimizer'] entry is
    read through ['model'], and the converted checkpoint that is saved holds
    the keys of that entry only. *)
Theorem c5_shape_selection_ordered (tensor : Type) (d : dict tensor) :
  (dict_contains "model" d = true ->
     exists m, dict_get "model" d = Some m /\
               select_state_dict (PyDict d) = Some (ViaModel, m)) /\
  (dict_contains "model" d = false -> dict_contains "state_dict" d = true ->
     exists sd, dict_get "state_dict" d = Some sd /\
                select_state_dict (PyDict d) = Some (ViaStateDict, sd)) /\
  (dict_contains "model" d = false -> dict_contains "state_dict" d = false ->
     select_state_dict (PyDict d) = Some (Flat, PyDict d)) /\
  (forall m o : pyobj tensor,
     select_state_dict (PyDict [("model", m); ("optimizer", o)])
     = Some (ViaModel, m)) /\
  (forall m sd o : pyobj tensor,
     select_state_dict
       (PyDict [("optimizer", o); ("state_dict", sd); ("model", m)])
     = Some (ViaModel, m)) /\
  (forall (fs : filesystem tensor) input_path output_path verbose
          (items : dict tensor) (o : pyobj tensor),
     torch_load fs input_path
       = inr (PyDict [("model", PyDict items); ("optimizer", o)]) ->
     exit_status (convert_checkpoint fs input_path output_path verbose)
       = None /\
     nth_error (stdout (convert_checkpoint fs input_path output_path verbose)) 1
       = Some (shape_message ViaModel) /\
     fs_read (files (convert_checkpoint fs input_path output_path verbose))
             output_path
       = Some (Pickle (PyDict (fst (convert_items items))))).
Proof.
  split; [|split; [|split; [|split; [|split]]]]; trivial.
  - intros H. apply dict_get_contains in H as [m H]. exists m.
    simpl. now rewrite H.
  - intros H1 H2. apply dict_get_absent in H1.
    apply dict_get_contains in H2 as [sd H2]. exists sd.
    simpl. now rewrite H1, H2.
  - intros H1 H2. apply dict_get_absent in H1, H2. simpl. now rewrite H1, H2.
  - intros fs input_path output_path verbose items o H.
    unfold convert_checkpoint. rewrite H. simpl.
    destruct (convert_items items) as [converted conversions]. simpl.
    rewrite String.eqb_refl, fold_print. repeat split.
    now destruct (verbose && _).
Qed.

(** ** C6: where the indexed-block rule fires *)

Lemma span_digits_stop (d r : string) :
  span_digits (d ++ r) = (d, r) -> starts_with_digit r = false.
Proof.
  induction d as [|c d IH]; simpl.
  - destruct r as [|c r]; trivial. simpl.
    destruct (is_digit c); [|trivial].
    destruct (span_digits r). discriminate.
  - destruct (is_digit c); [|discriminate].
    destruct (span_digits (d ++ r)) as [d' r'] eqn:E.
    intros [= -> ->]. now apply IH.
Qed.

Lemma re_sub_blocks_rewritten (s : string) :
  BlocksRewritten s (re_sub_blocks s).
Proof.
  apply re_sub_blocks_ind.
  - constructor.
  - intros c t E IH. now constructor.
  - intros d r Hd Hall Sp _ IH. apply BR_fire; trivial.
    now apply span_digits_stop in Sp.
Qed.

(** C6, as stated, fails: the pattern has no anchor on its left, so
    the rule also fires inside a longer token that ends in [blocks].  The
    key [myblocks.3.x] has no token [blocks], and yet its digit group is
    rewritten to [block_3]. *)
Lemma c6_token_boundary_counterexample :
  split_on "." "myblocks.3.x" = ["myblocks"; "3"; "x"] /\
  contains "block_3" "myblocks.3.x" = false /\
  convert_parameter_name "myblocks.3.x" = "myblock_3.x" /\
  contains "block_3" (convert_parameter_name "myblocks.3.x") = true.
Proof. repeat split; vm_compute; reflexivity. Qed.

(** C6 (amended): the block rule of [convert_parameter_name] rewrites
    exactly the places where the literal text [blocks.] is immediately
    followed by digits, turning [blocks.<digits>] into [block_<digits>] and
    copying every other character; a key without such a place is left as it
    is by the rule; and [convert_parameter_name "blocksomething.3.x"] does
    not contain [block_3]. *)
Theorem c6_block_rule_fires_on_literal (k : string) :
  convert_parameter_name k
    = infix_rules (blocks_rule (lm_head_rule (token_embedding_rule k))) /\
  (forall name, BlocksRewritten name (blocks_rule name)) /\
  (forall name, blocks_occurs name = false -> blocks_rule name = name) /\
  convert_parameter_name "blocksomething.3.x" = "blocksomething.3.x" /\
  contains "block_3" (convert_parameter_name "blocksomething.3.x") = false.
Proof.
  split; [reflexivity|]. split; [|split; [|split]].
  - intros name. rewrite blocks_rule_re_sub. apply re_sub_blocks_rewritten.
  - apply blocks_rule_absent.
  - vm_compute. reflexivity.
  - vm_compute. reflexivity.
Qed.

(** ** C7: a checkpoint that is not a mapping *)

(** C7: when the loaded checkpoint is not a dictionary the run prints
    the load line and the observed type, exits with status 1 and leaves the
    file system as it was: no output checkpoint is written. *)
Theorem c7_non_mapping_is_fatal (tensor : Type) (fs : filesystem tensor)
    (input_path output_path : string) (verbose : bool)
    (checkpoint : pyobj tensor) :
  torch_load fs input_path = inr checkpoint ->
  isinstance_dict checkpoint = false ->
  convert_checkpoint fs input_path output_path verbose
  = {| stdout :=
         ["Loading checkpoint from " ++ input_path ++ "...";
          "Unexpected checkpoint type: " ++ type_repr (type_of checkpoint)];
       exit_status := Some 1%Z;
       files := fs |}.
Proof.
  intros L D. unfold convert_checkpoint. rewrite L.
  destruct checkpoint; [discriminate | reflexivity | reflexivity].
Qed.

Lemma c7_non_mapping_witness :
  let fs : filesystem nat :=
    [("in.pt", Pickle (PyOther {| cls_module := ""; cls_name := "list" |}))] in
  stdout (convert_checkpoint fs "in.pt" "out.dat" false)
    = ["Loading checkpoint from in.pt...";
       "Unexpected checkpoint type: <class 'list'>"] /\
  exit_status (convert_checkpoint fs "in.pt" "out.dat" false) = Some 1%Z /\
  fs_read (files (convert_checkpoint fs "in.pt" "out.dat" false)) "out.dat"
    = None.
Proof.
  intros fs.
  rewrite (c7_non_mapping_is_fatal nat fs "in.pt" "out.dat" false
             (PyOther {| cls_module := ""; cls_name := "list" |}));
    [repeat split | reflexivity | reflexivity].
Defined.

(** ** C9: the token-embedding rule replaces every occurrence *)

Lemma token_replacements_long (r : string) :
  token_replacements ("token_embedding." ++ r)
  = "_tokenEmbedding." ++ token_replacements r.
Proof.
  unfold token_replacements, str_replace.
  rewrite literal_hit by discriminate.
  change ("_tokenEmbedding." ++ ?x)
    with (String "_" (String "t" (String "o" (String "k" (String "e"
         (String "n" (String "E" (String "m" (String "b" (String "e"
         (String "d" (String "d" (String "i" (String "n" (String "g"
         (String "." x)))))))))))))))).
  now rewrite !literal_miss by reflexivity.
Qed.

Lemma token_replacements_short (r : string) :
  token_replacements ("wte." ++ r) = "_tokenEmbedding." ++ token_replacements r.
Proof.
  unfold token_replacements. unfold str_replace at 2.
  change ("wte." ++ r) with (String "w" (String "t" (String "e" (String "." r)))).
  rewrite !literal_miss by reflexivity.
  unfold str_replace.
  change (String "w" (String "t" (String "e" (String "." ?x))))
    with ("wte." ++ x).
  now rewrite literal_hit by discriminate.
Qed.

Lemma token_replacements_copy (c : ascii) (t : string) :
  prefix "token_embedding." (String c t) = false ->
  prefix "wte." (String c t) = false ->
  token_replacements (String c t) = String c (token_replacements t).
Proof.
  intros H1 H2. unfold token_replacements. unfold str_replace at 2.
  rewrite (literal_miss _ _ _ _ H1). unfold str_replace.
  apply literal_miss.
  destruct (prefix "wte." (String c (sub_all _ t))) eqn:E; trivial.
  rewrite <- (literal_miss _ _ _ _ H1) in E.
  apply literal_prefix_back in E; [congruence | discriminate | reflexivity].
Qed.

Lemma token_replacements_rewritten (s : string) :
  TokenRewritten s (token_replacements s).
Proof.
  remember (String.length s) as n eqn:Hn.
  revert s Hn; induction n as [n IH] using lt_wf_ind; intros s Hn.
  destruct s as [|c t]; [constructor|].
  destruct (prefix "token_embedding." (String c t)) eqn:E1.
  - apply prefix_split in E1 as [r Hr]. rewrite Hr in *.
    rewrite token_replacements_long. apply TR_long.
    apply (IH (String.length r)); trivial.
    rewrite Hn, length_append. simpl. lia.
  - destruct (prefix "wte." (String c t)) eqn:E2.
    + apply prefix_split in E2 as [r Hr]. rewrite Hr in *.
      rewrite token_replacements_short. apply TR_short.
      apply (IH (String.length r)); trivial.
      rewrite Hn, length_append. simpl. lia.
    + rewrite token_replacements_copy by trivial. apply TR_copy; trivial.
      apply (IH (String.length t)); trivial. simpl in Hn. lia.
Qed.

Lemma token_replacements_clean (s : string) :
  contains "token_embedding." (token_replacements s) = false /\
  contains "wte." (token_replacements s) = false.
Proof.
  unfold token_replacements, str_replace. split.
  - destruct (contains _ (sub_all (literal "wte." _) _)) eqn:E; trivial.
    apply literal_contains_back in E; try reflexivity; try discriminate.
    now rewrite literal_clean in E.
  - now apply literal_clean.
Qed.

(** C9: for a key that starts with [wte.] or [token_embedding.],
    the rule replaces both spellings wherever they stand in the key, not only
    at its head: its result is the key with every occurrence of either
    spelling replaced by [_tokenEmbedding.], no occurrence of either is left
    in the converted key, and [wte.wte.x] becomes
    [_tokenEmbedding._tokenEmbedding.x]. *)
Theorem c9_token_rule_replaces_everywhere (k : string) :
  startswith k "wte." = true \/ startswith k "token_embedding." = true ->
  TokenRewritten k (token_embedding_rule k) /\
  convert_parameter_name k
    = infix_rules (blocks_rule (token_embedding_rule k)) /\
  contains "wte." (convert_parameter_name k) = false /\
  contains "token_embedding." (convert_parameter_name k) = false /\
  convert_parameter_name "wte.wte.x" = "_tokenEmbedding._tokenEmbedding.x".
Proof.
  intros H.
  assert (T : token_embedding_rule k = token_replacements k).
  { unfold token_embedding_rule.
    destruct H as [-> | ->]; [now rewrite orb_true_r | reflexivity]. }
  assert (L : lm_head_rule (token_embedding_rule k) = token_embedding_rule k).
  { destruct (token_embedding_rule_cases k) as [(T1 & T2 & _)|U];
      [destruct H; congruence|].
    destruct (lm_head_rule_cases (token_embedding_rule k)) as [[_ E]|V];
      trivial.
    unfold lm_head_rule in *.
    destruct (startswith (token_embedding_rule k) "lm_head.") eqn:S; trivial.
    discriminate (prefix_same_head _ _ _ _ _ U S). }
  destruct (token_replacements_clean k) as [C1 C2].
  rewrite convert_parameter_name_stages, L, T.
  split; [apply token_replacements_rewritten|].
  split; [reflexivity|]. split; [|split].
  - destruct (contains "wte." (infix_rules _)) eqn:E; trivial.
    apply (apply_table_contains_back infix_table) in E; [|reflexivity].
    apply blocks_rule_contains_back in E; [congruence | reflexivity].
  - destruct (contains "token_embedding." (infix_rules _)) eqn:E; trivial.
    apply (apply_table_contains_back infix_table) in E; [|reflexivity].
    apply blocks_rule_contains_back in E; [congruence | reflexivity].
  - vm_compute. reflexivity.
Qed.

Lemma c9_token_rule_witness :
  TokenRewritten "wte.wte.x" (token_embedding_rule "wte.wte.x") /\
  contains "wte." (convert_parameter_name "wte.wte.x") = false.
Proof.
  destruct (c9_token_rule_replaces_everywhere "wte.wte.x" (or_introl eq_refl))
    as (H1 & _ & H2 & _).
  now split.
Defined.

Lemma append_cancel_l (a x y : string) : a ++ x = a ++ y -> x = y.
Proof.
  induction a as [|c a IH]; simpl; trivial.
  intros [= H]. auto.
Qed.

Lemma path_join_inj (d a b : string) : path_join d a = path_join d b -> a = b.
Proof.
  unfold path_join. destruct (String.eqb d ""); trivial.
  destruct (ends_with_slash d); intros H.
  - now apply append_cancel_l in H.
  - now apply append_cancel_l, (append_cancel_l "/") in H.
Qed.

Lemma skipn_length_app {A} (l r : list A) :
  skipn (List.length l) (l ++ r) = r.
Proof. induction l as [|a l IH]; simpl; trivial. Qed.

Section VerifyFacts.

Context {tensor : Type}.
Variable torch : torch_library tensor.

Lemma create_test_input_run (seq_len vocab_size seed : Z) (w : world torch) :
  create_test_input torch seq_len vocab_size seed w
  = match randint torch 0 vocab_size [1%Z; seq_len]
                  (seed_generator torch seed) with
    | inl message =>
        (inl (OtherError message), set_gen (seed_generator torch seed) w)
    | inr (t, g) => (inr t, set_gen g w)
    end.
Proof.
  unfold create_test_input, bind, manual_seed, torch_randint, draw, ret.
  simpl. now destruct (randint _ _ _ _ _) as [m|[t g]].
Qed.

Lemma verify_saved (checkpoint_path output_dir : string) (seq_len : Z)
    (w : world torch) (checkpoint : pyobj tensor) :
  torch_load (disk w) checkpoint_path = inr checkpoint ->
  saved_by (verify_forward_pass torch checkpoint_path output_dir seq_len) w
  = fixture_writes torch output_dir seq_len.
Proof.
  intros L. unfold saved_by, verify_forward_pass, fixture_writes.
  unfold bind at 1. simpl. unfold verify_body. unfold bind at 1.
  unfold py_load at 1. simpl. rewrite L. unfold bind at 1.
  rewrite create_test_input_run. simpl.
  destruct (randint _ _ _ _ _) as [m|[input_ids g]]; simpl.
  { now rewrite <- (app_nil_r (saved w)) at 2; rewrite skipn_length_app. }
  unfold bind at 1, torch_randn at 1, draw. simpl.
  destruct (randn _ _ g) as [m|[logits g']]; simpl.
  { now rewrite <- (app_nil_r (saved w)) at 2; rewrite skipn_length_app. }
  unfold bind at 1, save_tensors. unfold bind at 1, makedirs.
  destruct (String.eqb output_dir ""); simpl.
  { now rewrite <- (app_nil_r (saved w)) at 2; rewrite skipn_length_app. }
  unfold bind, py_sample, raise, ret; simpl.
  destruct (sample_repr _ input_ids _); simpl;
    [|destruct (sample_repr _ logits _); simpl];
    now rewrite <- app_assoc, skipn_length_app.
Qed.

End VerifyFacts.

(** ** C3: the fixture generator is deterministic *)

(** C3: whatever the state of the world and of the default generator
    before the call, [create_test_input] with the same sequence length,
    vocabulary size and seed gives the same result (the same tensor, or the
    same error) and leaves the generator in the same state; so it does for
    (16, 32768, 42), and so does a second call that follows a first one in
    the same run. *)
Theorem c3_create_test_input_deterministic (tensor : Type)
    (torch : torch_library tensor) (seq_len vocab_size seed : Z) :
  (forall w1 w2 : world torch,
     fst (create_test_input torch seq_len vocab_size seed w1)
     = fst (create_test_input torch seq_len vocab_size seed w2)
     /\ gen (snd (create_test_input torch seq_len vocab_size seed w1))
        = gen (snd (create_test_input torch seq_len vocab_size seed w2))) /\
  (forall w1 w2 : world torch,
     fst (create_test_input torch 16 32768 42 w1)
     = fst (create_test_input torch 16 32768 42 w2)) /\
  (forall w : world torch,
     fst (create_test_input torch seq_len vocab_size seed
            (snd (create_test_input torch seq_len vocab_size seed w)))
     = fst (create_test_input torch seq_len vocab_size seed w)).
Proof.
  repeat split; intros; rewrite !create_test_input_run;
    destruct (randint _ _ _ _ _) as [m|[t g]]; reflexivity.
Qed.

(** ** C8: the fixtures do not depend on the checkpoint *)

(** C8: take two runs with the same sequence length, on any two
    checkpoints that load and from any two states of the world.  A
    [test_input] tensor saved by the one is the [test_input] tensor saved by
    the other; the two runs hand the same objects to [torch.save] when both
    output directories are usable, and to the same paths when the output
    directory is the same: the state dict taken from the checkpoint is never
    used. *)
Theorem c8_fixtures_independent_of_checkpoint (tensor : Type)
    (torch : torch_library tensor) (path1 path2 dir1 dir2 : string)
    (seq_len : Z) (w1 w2 : world torch) (checkpoint1 checkpoint2 : pyobj tensor) :
  torch_load (disk w1) path1 = inr checkpoint1 ->
  torch_load (disk w2) path2 = inr checkpoint2 ->
  (forall t1 t2,
     In (path_join dir1 "test_input.pt", PyTensor t1)
        (saved_by (verify_forward_pass torch path1 dir1 seq_len) w1) ->
     In (path_join dir2 "test_input.pt", PyTensor t2)
        (saved_by (verify_forward_pass torch path2 dir2 seq_len) w2) ->
     t1 = t2) /\
  (dir1 <> "" -> dir2 <> "" ->
   map snd (saved_by (verify_forward_pass torch path1 dir1 seq_len) w1)
   = map snd (saved_by (verify_forward_pass torch path2 dir2 seq_len) w2)) /\
  (dir1 = dir2 ->
   saved_by (verify_forward_pass torch path1 dir1 seq_len) w1
   = saved_by (verify_forward_pass torch path2 dir2 seq_len) w2).
Proof.
  intros L1 L2.
  rewrite (verify_saved _ _ _ _ _ _ L1), (verify_saved _ _ _ _ _ _ L2).
  split; [|split].
  - intros t1 t2. unfold fixture_writes.
    destruct (randint _ _ _ _ _) as [m|[input_ids g]]; [intros []|].
    destruct (randn _ _ _) as [m|[logits g']]; [intros []|].
    destruct (String.eqb dir1 ""); [intros []|].
    destruct (String.eqb dir2 ""); [intros _ []|].
    intros [H1|[H1|[]]] [H2|[H2|[]]].
    + injection H1 as <-. now injection H2 as <-.
    + injection H2 as E _. now apply path_join_inj in E.
    + injection H1 as E _. now apply path_join_inj in E.
    + injection H1 as E _. now apply path_join_inj in E.
  - intros D1 D2. apply String.eqb_neq in D1, D2. unfold fixture_writes.
    rewrite D1, D2.
    destruct (randint _ _ _ _ _) as [m|[input_ids g]]; trivial.
    now destruct (randn _ _ _) as [m|[logits g']].
  - now intros ->.
Qed.

Lemma c8_fixtures_witness :
  let w1 :=
    lcg_world 7 [] [("a.pt", Pickle (PyDict [("model", PyDict []);
                                             ("optimizer", PyDict [])]))] in
  let w2 :=
    lcg_world 99 ["earlier output"]
      [("b.pt", Pickle (PyDict [("wte.weight", PyTensor ([2; 3]%Z, 5%Z))]))] in
  saved_by (verify_forward_pass lcg_torch "a.pt" "out" 16) w1
  = saved_by (verify_forward_pass lcg_torch "b.pt" "out" 16) w2.
Proof.
  intros w1 w2.
  exact (proj2 (proj2 (c8_fixtures_independent_of_checkpoint
                  _ lcg_torch "a.pt" "b.pt" "out" "out" 16%Z w1 w2
                  (PyDict [("model", PyDict []); ("optimizer", PyDict [])])
                  (PyDict [("wte.weight", PyTensor ([2; 3]%Z, 5%Z))])
                  eq_refl eq_refl)) eq_refl).
Defined.

(** ** C10: the placeholder logits are deterministic *)

(** C10: on a checkpoint that loads, what a run saves is
    [fixture_writes]: nothing, or the token ids drawn from the generator
    seeded with 42 followed by the logits drawn from the state that draw
    left.  The saved [expected_output] tensor is therefore fixed by the seed
    42, the sequence length and the vocabulary size 32768, whatever the world
    and the generator state before the run. *)
Theorem c10_logits_determined_by_seed (tensor : Type)
    (torch : torch_library tensor) (checkpoint_path output_dir : string)
    (seq_len : Z) (w : world torch) (checkpoint : pyobj tensor) :
  torch_load (disk w) checkpoint_path = inr checkpoint ->
  saved_by (verify_forward_pass torch checkpoint_path output_dir seq_len) w
  = fixture_writes torch output_dir seq_len
  /\ (forall input_ids g logits g',
        randint torch 0 32768 [1%Z; seq_len] (seed_generator torch 42)
          = inr (input_ids, g) ->
        randn torch [1%Z; seq_len; 32768%Z] g = inr (logits, g') ->
        output_dir <> "" ->
        saved_by (verify_forward_pass torch checkpoint_path output_dir seq_len) w
        = [(path_join output_dir "test_input.pt", PyTensor input_ids);
           (path_join output_dir "expected_output.pt", PyTensor logits)]).
Proof.
  intros L. rewrite (verify_saved _ _ _ _ _ _ L). split; trivial.
  intros input_ids g logits g' R1 R2 D. unfold fixture_writes.
  rewrite R1, R2. apply String.eqb_neq in D. now rewrite D.
Qed.

Lemma c10_logits_witness :
  let w := lcg_world 7 [] [("a.pt", Pickle (PyDict [("model", PyDict [])]))] in
  saved_by (verify_forward_pass lcg_torch "a.pt" "out" 16) w
  = [("out/test_input.pt", PyTensor ([1; 16]%Z, 42%Z));
     ("out/expected_output.pt",
      PyTensor ([1; 16; 32768]%Z, lcg_next 42))].
Proof.
  intros w.
  refine (proj2 (c10_logits_determined_by_seed
                   _ lcg_torch "a.pt" "out" 16%Z w
                   (PyDict [("model", PyDict [])]) eq_refl)
            ([1; 16]%Z, 42%Z) (lcg_next 42) ([1; 16; 32768]%Z, lcg_next 42)
            (lcg_next (lcg_next 42)) eq_refl eq_refl _).
  discriminate.
Defined.

(** * Part IV: further properties of the code *)

(** ** [convert_parameter_name]: keys no rule applies to *)

(** X1: a key that has none of the three prefixes, no [blocks.]
    followed by a digit and no infix source fragment is returned as it
    is. *)
Theorem x1_unmatched_key_unchanged (k : string) :
  matches_no_rule k = true -> convert_parameter_name k = k.
Proof.
  unfold matches_no_rule. intros H.
  apply andb_true_iff in H as [H H5]. apply andb_true_iff in H as [H H4].
  apply andb_true_iff in H as [H H3]. apply andb_true_iff in H as [H1 H2].
  apply negb_true_iff in H1, H2, H3, H4.
  rewrite convert_parameter_name_stages.
  unfold token_embedding_rule. rewrite H1, H2. simpl orb. cbv iota.
  unfold lm_head_rule. rewrite H3.
  rewrite blocks_rule_absent by trivial. now apply infix_rules_absent.
Qed.

Lemma x1_unmatched_key_witness :
  matches_no_rule "transformer.ln_f.blocks.x.weight" = true /\
  convert_parameter_name "transformer.ln_f.blocks.x.weight"
  = "transformer.ln_f.blocks.x.weight".
Proof.
  split; [reflexivity|].
  apply (x1_unmatched_key_unchanged "transformer.ln_f.blocks.x.weight").
  reflexivity.
Defined.

(** ** Prefixes that a replacement keeps *)

Lemma prefix_both (a b s : string) :
  prefix a s = true -> prefix b s = true ->
  prefix a b = true \/ prefix b a = true.
Proof.
  revert b s; induction a as [|x a IH]; intros b s Ha Hb.
  - left. apply prefix_nil_l.
  - destruct b as [|y b]; [right; apply prefix_nil_l|].
    destruct s as [|z s]; [discriminate|].
    apply prefix_cons in Ha as [-> Ha]. apply prefix_cons in Hb as [-> Hb].
    destruct (IH _ _ Ha Hb); [left | right]; apply prefix_cons; auto.
Qed.

Lemma no_char_head_free (h : ascii) (w : string) :
  no_char h w = true -> head_free h w = true.
Proof.
  induction w as [|c w IH]; trivial.
  simpl. intros H. apply andb_true_iff in H as [H1 H2].
  destruct w; trivial. now rewrite H1, IH.
Qed.

(** A literal replacement whose pattern and new text begin with the same
    character keeps every prefix that has this character at its end only. *)
Lemma literal_prefix_forward (h : ascii) (x y w : string) :
  head_free h w = true ->
  forall s, prefix w s = true ->
    prefix w (sub_all (literal (String h x) (String h y)) s) = true.
Proof.
  induction w as [|c w IH]; intros Hw s H; [apply prefix_nil_l|].
  destruct s as [|c' s]; [discriminate|].
  apply prefix_cons in H as [<- H].
  destruct (prefix (String h x) (String c s)) eqn:E.
  - pose proof E as E'. rewrite prefix_cons_eq in E'.
    destruct (Ascii.eqb_spec h c) as [<-|]; [|discriminate].
    apply prefix_split in E as [r E]. rewrite E.
    rewrite literal_hit by discriminate.
    simpl (_ ++ _). rewrite prefix_cons_eq, Ascii.eqb_refl.
    destruct w as [|c2 w]; [apply prefix_nil_l|].
    cbn [head_free] in Hw. now rewrite Ascii.eqb_refl in Hw.
  - rewrite literal_miss by trivial.
    rewrite prefix_cons_eq, Ascii.eqb_refl.
    destruct w as [|c2 w]; [apply prefix_nil_l|].
    apply IH; trivial.
    cbn [head_free] in Hw. now apply andb_true_iff in Hw as [_ Hw].
Qed.

Lemma infix_rules_prefix_forward (w s : string) :
  head_free "." w = true ->
  prefix w s = true -> prefix w (infix_rules s) = true.
Proof.
  intros Hw. unfold infix_rules, infix_table. cbn [fold_left fst snd].
  unfold str_replace. intros H.
  repeat (apply (literal_prefix_forward "."); trivial).
Qed.

(** The block rewrite keeps every prefix inside which the pattern cannot
    begin. *)
Lemma re_sub_blocks_prefix_forward (w : string) :
  inner_safe "blocks." w = true ->
  forall s, prefix w s = true -> prefix w (re_sub_blocks s) = true.
Proof.
  induction w as [|c w IH]; intros Hw s H; [apply prefix_nil_l|].
  cbn [inner_safe] in Hw. apply andb_true_iff in Hw as [H1 H2].
  apply negb_true_iff, orb_false_iff in H1 as [N1 N2].
  destruct (block_at s) eqn:E.
  - apply block_at_prefix in E as (d & _ & E).
    assert (B : prefix "blocks." s = true).
    { apply prefix_split in E as [r ->]. reflexivity. }
    destruct (prefix_both _ _ _ H B); congruence.
  - destruct s as [|c' s]; [discriminate|].
    rewrite re_sub_blocks_miss by trivial.
    apply prefix_cons in H as [<- H].
    rewrite prefix_cons_eq, Ascii.eqb_refl. now apply IH.
Qed.

Lemma blocks_rule_prefix_forward (w s : string) :
  inner_safe "blocks." w = true ->
  prefix w s = true -> prefix w (blocks_rule s) = true.
Proof.
  intros Hw H. rewrite blocks_rule_re_sub.
  now apply re_sub_blocks_prefix_forward.
Qed.

(** ** [convert_parameter_name]: the block index *)

Lemma re_sub_blocks_digits (d r : string) :
  all_digits d = true -> re_sub_blocks (d ++ r) = d ++ re_sub_blocks r.
Proof.
  induction d as [|c d IH]; intros H; trivial.
  simpl in H. apply andb_true_iff in H as [Hc Hd].
  simpl (_ ++ _). rewrite re_sub_blocks_miss, IH; trivial.
  destruct (block_at (String c (d ++ r))) eqn:E; trivial.
  apply block_at_head in E. subst c. discriminate.
Qed.

(** Where [blocks.] is followed by digits, the rule puts [block_] in its
    place and leaves the digits. *)
Lemma re_sub_blocks_fire (n rest : string) :
  n <> "" -> all_digits n = true ->
  re_sub_blocks ("blocks." ++ n ++ rest) = "block_" ++ n ++ re_sub_blocks rest.
Proof.
  intros Hn Hd.
  assert (A : block_at ("blocks." ++ n ++ rest) = true).
  { destruct n as [|c n]; [now elim Hn|]. cbn [all_digits] in Hd.
    apply andb_true_iff in Hd as [Hc _]. apply block_at_prefix.
    exists c. split; trivial.
    exact (prefix_append ("blocks." ++ String c "") (n ++ rest)). }
  destruct (re_sub_blocks_hit _ A) as (d & r & Hs & _ & Hall & R).
  apply append_cancel_l in Hs.
  rewrite R, <- re_sub_blocks_digits, <- Hs by trivial.
  now rewrite re_sub_blocks_digits.
Qed.

Lemma all_digits_no_dot (d : string) :
  all_digits d = true -> no_char "." d = true.
Proof.
  induction d as [|c d IH]; simpl; trivial.
  intros H. apply andb_true_iff in H as [Hc Hd]. rewrite (IH Hd).
  digit_cases Hc; reflexivity.
Qed.

(** X2: a key that begins with [blocks.] and a block index of one or
    more digits is converted to a key that begins with [block_] and the same
    digits, whatever follows the index. *)
Theorem x2_block_index_preserved (n rest : string) :
  n <> "" -> all_digits n = true ->
  prefix ("block_" ++ n) (convert_parameter_name ("blocks." ++ n ++ rest))
  = true.
Proof.
  intros Hn Hd. rewrite convert_parameter_name_stages.
  change (token_embedding_rule ("blocks." ++ n ++ rest))
    with ("blocks." ++ n ++ rest).
  change (lm_head_rule ("blocks." ++ n ++ rest)) with ("blocks." ++ n ++ rest).
  rewrite blocks_rule_re_sub, re_sub_blocks_fire by trivial.
  apply infix_rules_prefix_forward.
  - apply no_char_head_free.
    change (no_char "." ("block_" ++ n)) with (no_char "." n).
    now apply all_digits_no_dot.
  - rewrite <- append_assoc. apply prefix_append.
Qed.

Lemma x2_block_index_witness :
  prefix "block_12"
    (convert_parameter_name "blocks.12.attn.out_proj.weight") = true.
Proof.
  apply (x2_block_index_preserved "12" ".attn.out_proj.weight");
    [discriminate | reflexivity].
Defined.

(** ** [convert_parameter_name]: what a converted key never holds *)

Lemma contains_blocks_occurs (c : ascii) (s : string) :
  is_digit c = true ->
  contains ("blocks." ++ String c "") s = true -> blocks_occurs s = true.
Proof.
  intros Hc. induction s as [|a s IH]; [discriminate|].
  cbn [contains blocks_occurs]. intros H.
  apply orb_true_iff in H as [H|H].
  - replace (block_at (String a s)) with true; trivial.
    symmetry. apply block_at_prefix. eauto.
  - rewrite (IH H). apply orb_true_r.
Qed.

(** X3: no converted key holds [blocks.] followed by a digit, and no
    converted key starts with [token_embedding.], [wte.] or [lm_head.]. *)
Theorem x3_converted_key_has_no_source_form (k : string) :
  (forall c, is_digit c = true ->
     contains ("blocks." ++ String c "") (convert_parameter_name k) = false) /\
  startswith (convert_parameter_name k) "token_embedding." = false /\
  startswith (convert_parameter_name k) "wte." = false /\
  startswith (convert_parameter_name k) "lm_head." = false.
Proof.
  split; [|repeat split; apply converted_no_rule_prefix; simpl; auto].
  intros c Hc.
  destruct (contains _ (convert_parameter_name k)) eqn:E; trivial.
  apply contains_blocks_occurs in E; trivial.
  now rewrite converted_blocks_free in E.
Qed.

(** ** [convert_parameter_name]: the two prefix rules *)

Lemma converted_keeps_prefix (w s : string) :
  inner_safe "blocks." w = true -> head_free "." w = true ->
  prefix w s = true -> prefix w (infix_rules (blocks_rule s)) = true.
Proof.
  intros H1 H2 H.
  now apply infix_rules_prefix_forward, blocks_rule_prefix_forward.
Qed.

(** X4: a key that starts with [wte.] or [token_embedding.] is
    converted to a key that starts with [_tokenEmbedding.], and a key that
    starts with [lm_head.] to a key that starts with [_lmHead.]. *)
Theorem x4_prefix_rules_give_target_prefix (k : string) :
  (startswith k "wte." = true \/ startswith k "token_embedding." = true ->
   startswith (convert_parameter_name k) "_tokenEmbedding." = true) /\
  (startswith k "lm_head." = true ->
   startswith (convert_parameter_name k) "_lmHead." = true).
Proof.
  unfold startswith. rewrite convert_parameter_name_stages. split.
  - intros H.
    assert (T : prefix "_tokenEmbedding." (token_embedding_rule k) = true).
    { unfold token_embedding_rule, startswith.
      fold (token_replacements k).
      destruct H as [H|H]; rewrite H, ?orb_true_r; cbn [orb];
        apply prefix_split in H as [r ->].
      - rewrite token_replacements_short. apply prefix_append.
      - rewrite token_replacements_long. apply prefix_append. }
    apply converted_keeps_prefix; try reflexivity.
    unfold lm_head_rule, startswith.
    destruct (prefix "lm_head." (token_embedding_rule k)) eqn:E; trivial.
    discriminate (prefix_same_head _ _ _ _ _ T E).
  - intros H.
    assert (T : token_embedding_rule k = k).
    { unfold token_embedding_rule, startswith.
      destruct (prefix "token_embedding." k) eqn:E1;
        [discriminate (prefix_same_head _ _ _ _ _ H E1)|].
      destruct (prefix "wte." k) eqn:E2;
        [discriminate (prefix_same_head _ _ _ _ _ H E2) | reflexivity]. }
    rewrite T. apply converted_keeps_prefix; try reflexivity.
    unfold lm_head_rule, startswith. rewrite H.
    apply prefix_split in H as [r ->].
    unfold str_replace. rewrite literal_hit by discriminate.
    apply prefix_append.
Qed.

(** ** [convert_parameter_name]: the last component of a key *)

Lemma append_split (a b c d : string) :
  a ++ b = c ++ d ->
  (exists m, a = c ++ m /\ d = m ++ b) \/
  (exists m, m <> "" /\ c = a ++ m /\ b = m ++ d).
Proof.
  revert c; induction a as [|x a IH]; intros c H.
  - destruct c as [|y c].
    + left. now exists "".
    + right. exists (String y c). repeat split; trivial. discriminate.
  - destruct c as [|y c].
    + left. now exists (String x a).
    + simpl in H. injection H as -> H.
      destruct (IH _ H) as [(m & -> & ->)|(m & Hm & -> & ->)].
      * left. now exists m.
      * right. now exists m.
Qed.

Lemma ends_like (a b m : string) (h : ascii) :
  a ++ String h "" = b ++ m -> m <> "" -> exists m', m = m' ++ String h "".
Proof.
  intros H Hm. destruct (append_split _ _ _ _ H) as [(x & _ & E)|(x & Hx & _ & E)].
  - now exists x.
  - destruct x as [|c x]; [now elim Hx|]. simpl in E. injection E as _ E.
    destruct x; [|discriminate]. simpl in E. now subst m.
Qed.

Lemma no_char_app (h : ascii) (a b : string) :
  no_char h (a ++ b) = no_char h a && no_char h b.
Proof.
  induction a as [|c a IH]; trivial.
  simpl. now rewrite IH, andb_assoc.
Qed.

Lemma no_char_not_contains (h : ascii) (o p s : string) :
  no_char h s = true -> contains (o ++ String h p) s = false.
Proof.
  intros H.
  assert (N : forall s, no_char h s = true ->
                prefix (o ++ String h p) s = false).
  { intros t Ht. destruct (prefix _ t) eqn:E; trivial.
    apply prefix_split in E as [r ->].
    rewrite !no_char_app in Ht. simpl in Ht.
    rewrite Ascii.eqb_refl in Ht. simpl in Ht.
    now rewrite andb_false_r in Ht. }
  induction s as [|c s IH].
  - cbn [contains]. apply N. reflexivity.
  - cbn [contains]. rewrite (N _ H). simpl in H.
    apply andb_true_iff in H as [_ H]. now apply IH.
Qed.

(** A literal replacement between texts that end with a dot leaves a last,
    dot-free component as it is. *)
Lemma literal_keeps_leaf (o n leaf : string) :
  no_char "." leaf = true ->
  forall s, exists s',
    sub_all (literal (o ++ ".") (n ++ ".")) (s ++ "." ++ leaf)
    = s' ++ "." ++ leaf.
Proof.
  intros Hleaf s.
  assert (Hold : o ++ "." <> "") by (destruct o; discriminate).
  assert (Habs : sub_all (literal (o ++ ".") (n ++ ".")) leaf = leaf).
  { pose proof (str_replace_absent (o ++ ".") (n ++ ".") leaf
                  (no_char_not_contains "." o "" leaf Hleaf)) as A.
    unfold str_replace in A. now destruct (o ++ "."). }
  remember (String.length s) as len eqn:Hlen.
  revert s Hlen; induction len as [len IH] using lt_wf_ind; intros s Hlen.
  destruct (prefix (o ++ ".") (s ++ "." ++ leaf)) eqn:E.
  - apply prefix_split in E as [r E].
    destruct (append_split _ _ _ _ E) as [(m & -> & ->)|(m & Hm & Ho & Hl)].
    + rewrite append_assoc, literal_hit by trivial.
      destruct (IH (String.length m)) with (s := m) as [m' ->]; trivial.
      * rewrite Hlen, length_append. destruct (o ++ "."); [now elim Hold|].
        simpl. lia.
      * exists ((n ++ ".") ++ m'). now rewrite !append_assoc.
    + destruct m as [|c m2]; [now elim Hm|].
      simpl in Hl. injection Hl as <- Hl.
      destruct m2 as [|c2 m2].
      * simpl in Hl. subst r. rewrite E, literal_hit, Habs by trivial.
        exists n. now rewrite append_assoc.
      * exfalso.
        assert (Ho' : o ++ "." = (s ++ ".") ++ String c2 m2)
          by now rewrite append_assoc.
        apply ends_like in Ho' as [m' Hm']; [|discriminate].
        rewrite Hl, Hm', !no_char_app in Hleaf. simpl in Hleaf.
        now rewrite andb_false_r in Hleaf.
  - destruct s as [|c s].
    + exists "". simpl in *. now rewrite literal_miss, Habs.
    + simpl (_ ++ _) in *. rewrite literal_miss by trivial.
      destruct (IH (String.length s)) with (s := s) as [s' ->]; trivial.
      * simpl in Hlen. lia.
      * now exists (String c s').
Qed.

Lemma str_replace_keeps_leaf (old new leaf s : string) :
  is_suffix "." old = true -> is_suffix "." new = true ->
  no_char "." leaf = true ->
  exists s', str_replace (s ++ "." ++ leaf) old new = s' ++ "." ++ leaf.
Proof.
  intros Ho Hn Hleaf.
  apply is_suffix_split in Ho as [o ->]. apply is_suffix_split in Hn as [n ->].
  unfold str_replace. destruct (o ++ ".") eqn:E; [destruct o; discriminate|].
  rewrite <- E. now apply literal_keeps_leaf.
Qed.

Lemma re_sub_blocks_step (s : string) :
  block_at s = true ->
  exists t, s = "blocks." ++ t /\ starts_with_digit t = true /\
            re_sub_blocks s = "block_" ++ re_sub_blocks t.
Proof.
  intros H. destruct (re_sub_blocks_hit _ H) as (d & r & -> & Hd & Hall & R).
  exists (d ++ r). repeat split.
  - destruct d as [|c d]; [now elim Hd|]. simpl in *.
    now apply andb_true_iff in Hall as [-> _].
  - now rewrite R, re_sub_blocks_digits.
Qed.

(** The block rewrite leaves a last component without dot and without a
    leading digit as it is. *)
Lemma re_sub_blocks_keeps_leaf (leaf : string) :
  no_char "." leaf = true -> starts_with_digit leaf = false ->
  forall s, exists s', re_sub_blocks (s ++ "." ++ leaf) = s' ++ "." ++ leaf.
Proof.
  intros Hleaf Hdig s.
  assert (Habs : re_sub_blocks leaf = leaf).
  { apply re_sub_blocks_absent.
    destruct (blocks_occurs leaf) eqn:O; trivial.
    apply blocks_occurs_contains in O.
    pose proof (no_char_not_contains "." "blocks" "" leaf Hleaf) as C.
    change (contains "blocks." leaf = false) in C. congruence. }
  remember (String.length s) as len eqn:Hlen.
  revert s Hlen; induction len as [len IH] using lt_wf_ind; intros s Hlen.
  destruct (block_at (s ++ "." ++ leaf)) eqn:E.
  - destruct (re_sub_blocks_step _ E) as (t & Ht & Dt & R). rewrite R.
    destruct (append_split _ _ _ _ Ht) as [(m & -> & ->)|(m & Hm & Ho & Hl)].
    + destruct (IH (String.length m)) with (s := m) as [m' ->]; trivial.
      * rewrite Hlen, length_append. simpl. lia.
      * now exists ("block_" ++ m').
    + exfalso. destruct m as [|c m2]; [now elim Hm|].
      simpl in Hl. injection Hl as <- Hl.
      destruct m2 as [|c2 m2].
      * simpl in Hl. subst t. congruence.
      * assert (Ho' : "blocks" ++ "." = (s ++ ".") ++ String c2 m2)
          by now rewrite append_assoc.
        apply ends_like in Ho' as [m' Hm']; [|discriminate].
        rewrite Hl, Hm', !no_char_app in Hleaf. simpl in Hleaf.
        now rewrite andb_false_r in Hleaf.
  - destruct s as [|c s].
    + exists "". simpl in *. now rewrite re_sub_blocks_miss, Habs.
    + simpl (_ ++ _) in *. rewrite re_sub_blocks_miss by trivial.
      destruct (IH (String.length s)) with (s := s) as [s' ->]; trivial.
      * simpl in Hlen. lia.
      * now exists (String c s').
Qed.

Lemma apply_table_keeps_leaf (table : list (string * string)) (leaf : string) :
  forallb (fun r => is_suffix "." (fst r) && is_suffix "." (snd r)) table
  = true ->
  no_char "." leaf = true ->
  forall s, exists s', apply_table table (s ++ "." ++ leaf) = s' ++ "." ++ leaf.
Proof.
  intros Ht Hleaf. induction table as [|[old new] tl IH]; intros s.
  - now exists s.
  - cbn [forallb fst snd] in Ht. apply andb_true_iff in Ht as [H Ht].
    apply andb_true_iff in H as [Ho Hn].
    destruct (str_replace_keeps_leaf old new leaf s Ho Hn Hleaf) as [s1 E].
    destruct (IH Ht s1) as [s2 E2]. exists s2.
    change (apply_table ((old, new) :: tl) (s ++ "." ++ leaf))
      with (apply_table tl (str_replace (s ++ "." ++ leaf) old new)).
    now rewrite E.
Qed.

(** X5: the last component of a key is never changed: for every key
    that ends with a dot and a component [leaf] without dot and without a
    leading digit (such as [weight] or [bias]), the converted key ends with
    the same dot and component. *)
Theorem x5_last_component_unchanged (k leaf : string) :
  no_char "." leaf = true -> starts_with_digit leaf = false ->
  exists k', convert_parameter_name (k ++ "." ++ leaf) = k' ++ "." ++ leaf.
Proof.
  intros Hleaf Hdig. rewrite convert_parameter_name_stages.
  assert (T : exists s1, token_embedding_rule (k ++ "." ++ leaf)
                         = s1 ++ "." ++ leaf).
  { unfold token_embedding_rule. destruct (_ || _); [|now exists k].
    destruct (str_replace_keeps_leaf "token_embedding." "_tokenEmbedding."
                leaf k eq_refl eq_refl Hleaf) as [s0 ->].
    now apply str_replace_keeps_leaf. }
  destruct T as [s1 ->].
  assert (L : exists s2, lm_head_rule (s1 ++ "." ++ leaf) = s2 ++ "." ++ leaf).
  { unfold lm_head_rule. destruct (startswith _ _); [|now exists s1].
    now apply str_replace_keeps_leaf. }
  destruct L as [s2 ->].
  rewrite blocks_rule_re_sub.
  destruct (re_sub_blocks_keeps_leaf leaf Hleaf Hdig s2) as [s3 ->].
  now apply (apply_table_keeps_leaf infix_table).
Qed.

Lemma x5_last_component_witness :
  exists k', convert_parameter_name "wte.weight" = k' ++ ".weight".
Proof.
  exact (x5_last_component_unchanged "wte" "weight" eq_refl eq_refl).
Defined.

(** ** [convert_parameter_name]: two passes are enough *)

Lemma only_last_split (h : ascii) (t : string) :
  only_last h t = true ->
  exists x, t = x ++ String h "" /\ no_char h x = true.
Proof.
  induction t as [|c t IH]; [discriminate|].
  cbn [only_last]. destruct t as [|c2 t].
  - intros H. apply Ascii.eqb_eq in H. subst c. now exists "".
  - intros H. apply andb_true_iff in H as [H1 H2].
    destruct (IH H2) as (x & E & Hx). exists (String c x). split.
    + simpl. now rewrite E.
    + simpl. now rewrite H1, Hx.
Qed.

Lemma prefix_app_l_inv (a b s : string) :
  prefix (a ++ b) s = true -> prefix a s = true.
Proof.
  intros H. apply prefix_split in H as [r ->].
  rewrite append_assoc. apply prefix_append.
Qed.

Lemma literal_skip (h : ascii) (body new x s : string) :
  no_char h x = true ->
  sub_all (literal (String h body) new) (x ++ s)
  = x ++ sub_all (literal (String h body) new) s.
Proof.
  induction x as [|c x IH]; intros H; trivial.
  simpl in H. apply andb_true_iff in H as [Hc Hx].
  simpl (_ ++ _). rewrite literal_miss, IH; trivial.
  rewrite prefix_cons_eq. apply negb_true_iff in Hc. now rewrite Hc.
Qed.

(** A replacement of [h x h] never leaves [h x h x h] behind. *)
Lemma literal_no_doubled (h : ascii) (x new : string) :
  no_char h x = true ->
  back_safe (String h (x ++ String h "")) new
            (doubled (String h (x ++ String h ""))) = true ->
  rebuilt_only_at_end (doubled (String h (x ++ String h ""))) new = true ->
  prefix (String h (x ++ String h "")) new = false ->
  prefix new (String h (x ++ String h "")) = false ->
  forall s,
    contains (doubled (String h (x ++ String h "")))
             (sub_all (literal (String h (x ++ String h "")) new) s) = false.
Proof.
  set (old := String h (x ++ String h "")).
  intros Hx Hb Hr N1 N2.
  assert (Hold : old <> "") by discriminate.
  assert (D : doubled old = String h "" ++ (x ++ old)).
  { unfold doubled, old. simpl. now rewrite !append_assoc. }
  assert (Q : forall r, prefix (x ++ old) (sub_all (literal old new) r) = false).
  { intros r. destruct (prefix _ (sub_all _ r)) eqn:E; trivial.
    pose proof E as E'.
    apply literal_prefix_back in E';
      [|trivial | rewrite D in Hb; now apply back_safe_suffix in Hb].
    apply prefix_split in E' as [r2 ->].
    rewrite append_assoc in E. unfold old at 2 in E.
    rewrite literal_skip in E by trivial. fold old in E.
    rewrite literal_hit, prefix_app_cancel in E by trivial.
    destruct (prefix_app_cases _ _ _ E); congruence. }
  intros s.
  apply (sub_all_ind _ (literal_ok old new Hold)
           (fun s o => contains (doubled old) o = false)).
  - reflexivity.
  - intros c t E IH. cbn [contains]. rewrite IH, orb_false_r.
    destruct (prefix (doubled old) (String c (sub_all _ t))) eqn:P; trivial.
    rewrite <- (sub_all_miss _ _ _ E) in P.
    apply literal_prefix_back in P; trivial.
    apply prefix_app_l_inv in P. unfold literal in E. now rewrite P in E.
  - intros u r out _ E IH. unfold literal in E.
    destruct (prefix old (u ++ r)); [|discriminate]. injection E as <- _.
    destruct (contains (doubled old) (new ++ sub_all _ r)) eqn:C; trivial.
    destruct (contains_app_rebuilt _ _ _ Hr C) as [C'|C'].
    + congruence.
    + rewrite D in C'. simpl in C'. now rewrite Q in C'.
Qed.

Lemma str_replace_no_doubled (q : string * string) (s : string) :
  no_doubled_ok q = true ->
  contains (doubled (fst q)) (str_replace s (fst q) (snd q)) = false.
Proof.
  unfold no_doubled_ok. destruct q as [old new]. cbn [fst snd]. intros H.
  apply andb_true_iff in H as [H H4]. apply andb_true_iff in H as [H H3].
  apply andb_true_iff in H as [H1 H2].
  apply negb_true_iff, orb_false_iff in H4 as [N1 N2].
  destruct old as [|h t]; [discriminate|].
  destruct (only_last_split _ _ H1) as (x & -> & Hx).
  now apply literal_no_doubled.
Qed.

Lemma apply_table_no_doubled (todo : list (string * string)) :
  chain_keeps_single todo = true ->
  forall s,
    forallb (fun r => negb (contains (doubled (fst r)) (apply_table todo s)))
            todo = true.
Proof.
  induction todo as [|q tl IH]; intros C s; trivial.
  cbn [chain_keeps_single] in C. apply andb_true_iff in C as [C C3].
  apply andb_true_iff in C as [C1 C2].
  cbn [forallb]. change (apply_table (q :: tl) s)
    with (apply_table tl (str_replace s (fst q) (snd q))).
  rewrite (IH C3), andb_true_r. apply negb_true_iff.
  destruct (contains (doubled (fst q)) (apply_table tl _)) eqn:E; trivial.
  apply apply_table_contains_back in E; trivial.
  now rewrite str_replace_no_doubled in E.
Qed.

(** No converted key holds an infix source fragment twice in a row. *)
Lemma converted_no_repeated_fragment (k : string) :
  no_repeated_fragment (convert_parameter_name k) = true.
Proof.
  rewrite convert_parameter_name_stages.
  apply (apply_table_no_doubled infix_table). vm_compute. reflexivity.
Qed.

(** X6: a second conversion always reaches a fixed point: converting
    a key three times gives what converting it twice gives. *)
Theorem x6_two_passes_reach_fixed_point (k : string) :
  convert_parameter_name
    (convert_parameter_name (convert_parameter_name k))
  = convert_parameter_name (convert_parameter_name k).
Proof.
  apply idempotent_when_infix_free, converted_infix_free,
    converted_no_repeated_fragment.
Qed.

(** ** [convert_checkpoint]: what a run leaves behind *)

Section CheckpointFacts.

Context {tensor : Type}.
Implicit Types (fs : filesystem tensor) (d items : dict tensor).

Lemma fs_read_write_same fs (path : string) (f : file tensor) :
  fs_read (fs_write fs path f) path = Some f.
Proof. simpl. now rewrite String.eqb_refl. Qed.

Lemma fs_read_write_other fs (path p : string) (f : file tensor) :
  p <> path -> fs_read (fs_write fs path f) p = fs_read fs p.
Proof.
  intros N. unfold fs_write. cbn [fs_read].
  apply String.eqb_neq in N. rewrite N.
  induction fs as [|[q g] tl IH]; trivial.
  cbn [filter fst]. destruct (String.eqb path q) eqn:E; cbn [negb fs_read].
  - apply String.eqb_eq in E. subst q. now rewrite N.
  - now rewrite IH.
Qed.

Lemma dict_set_new (k : string) (v : pyobj tensor) d :
  dict_contains k d = false -> dict_set k v d = (d ++ [(k, v)])%list.
Proof.
  induction d as [|[k' v'] tl IH]; trivial.
  simpl. destruct (String.eqb k k'); [discriminate|].
  simpl. intros H. now rewrite IH.
Qed.

Lemma dict_get_set (n k : string) (v : pyobj tensor) d :
  dict_get n (dict_set k v d)
  = if String.eqb n k then Some v else dict_get n d.
Proof.
  induction d as [|[k' v'] tl IH]; simpl.
  - now destruct (String.eqb n k).
  - destruct (String.eqb_spec k k') as [<-|N]; simpl.
    + now destruct (String.eqb n k).
    + rewrite IH. destruct (String.eqb_spec n k') as [->|]; trivial.
      apply String.eqb_neq in N. rewrite String.eqb_sym. now rewrite N.
Qed.

Lemma convert_items_injective_fold items (acc : dict tensor)
    (cs : list (string * string)) :
  NoDup (dict_keys acc ++ map convert_parameter_name (dict_keys items)) ->
  fst (fold_left convert_step items (acc, cs))
  = (acc ++ map renamed items)%list.
Proof.
  revert acc cs; induction items as [|[k v] tl IH]; intros acc cs N.
  - simpl. now rewrite app_nil_r.
  - cbn [fold_left convert_step].
    assert (A : dict_contains (convert_parameter_name k) acc = false).
    { destruct (dict_contains _ acc) eqn:E; trivial.
      rewrite dict_contains_keys in E. apply existsb_eqb_In in E.
      simpl in N. apply NoDup_remove_2 in N. elim N.
      apply in_or_app. now left. }
    rewrite (dict_set_new _ _ _ A), IH.
    + now rewrite <- app_assoc.
    + unfold dict_keys in *. rewrite map_app, <- app_assoc. exact N.
Qed.

Lemma convert_items_report_fold items (acc : dict tensor)
    (cs : list (string * string)) :
  snd (fold_left convert_step items (acc, cs))
  = (cs ++ map (fun kv => (fst kv, convert_parameter_name (fst kv)))
             (filter (fun kv => negb (String.eqb (fst kv)
                                  (convert_parameter_name (fst kv))))
                     items))%list.
Proof.
  revert acc cs; induction items as [|[k v] tl IH]; intros acc cs.
  - simpl. now rewrite app_nil_r.
  - cbn [fold_left convert_step filter fst]. rewrite IH.
    destruct (negb (String.eqb k (convert_parameter_name k))); trivial.
    now rewrite <- app_assoc.
Qed.

Lemma find_last {A} (f : A -> bool) (l : list A) (x : A) :
  find f (l ++ [x])
  = match find f l with
    | Some y => Some y
    | None => if f x then Some x else None
    end.
Proof.
  induction l as [|a l IH]; simpl; trivial.
  now destruct (f a).
Qed.

Lemma convert_items_lookup_fold items (acc : dict tensor)
    (cs : list (string * string)) (n : string) :
  dict_get n (fst (fold_left convert_step items (acc, cs)))
  = match find (fun kv => String.eqb n (convert_parameter_name (fst kv)))
               (rev items) with
    | Some kv => Some (snd kv)
    | None => dict_get n acc
    end.
Proof.
  revert acc cs; induction items as [|[k v] tl IH]; intros acc cs; trivial.
  cbn [fold_left convert_step rev]. rewrite IH, find_last, dict_get_set.
  cbn [fst snd].
  destruct (find _ (rev tl)); trivial.
  now destruct (String.eqb n (convert_parameter_name k)).
Qed.

Lemma convert_items_fixed_fold items (acc : dict tensor)
    (cs : list (string * string)) :
  NoDup (dict_keys acc ++ dict_keys items) ->
  (forall k, In k (dict_keys items) -> convert_parameter_name k = k) ->
  fold_left convert_step items (acc, cs) = ((acc ++ items)%list, cs).
Proof.
  revert acc cs; induction items as [|[k v] tl IH]; intros acc cs N F.
  - simpl. now rewrite app_nil_r.
  - cbn [fold_left convert_step].
    rewrite (F k) by (simpl; auto). rewrite String.eqb_refl. cbn [negb].
    assert (A : dict_contains k acc = false).
    { destruct (dict_contains k acc) eqn:E; trivial.
      rewrite dict_contains_keys in E. apply existsb_eqb_In in E.
      simpl in N. apply NoDup_remove_2 in N. elim N.
      apply in_or_app. now left. }
    rewrite (dict_set_new _ _ _ A), IH.
    + now rewrite <- app_assoc.
    + unfold dict_keys in *. rewrite map_app, <- app_assoc. exact N.
    + intros k' H. apply F. simpl. auto.
Qed.

End CheckpointFacts.

(** X7: a run of [convert_checkpoint] either exits with status 1 and
    leaves the file system as it was, or returns normally, and then the
    output path holds the converted state dict of the checkpoint that was
    loaded, which loads back unchanged.  A checkpoint that loads and whose
    state dict is a dictionary with strings as keys is always converted: the
    run returns normally (saving being taken to succeed, as in the file
    system of the model).  In every case no file other than the output path
    is touched. *)
Theorem x7_convert_checkpoint_outcome (tensor : Type) (fs : filesystem tensor)
    (input_path output_path : string) (verbose : bool) :
  ((exit_status (convert_checkpoint fs input_path output_path verbose)
      = Some 1%Z /\
    files (convert_checkpoint fs input_path output_path verbose) = fs)
   \/
   (exit_status (convert_checkpoint fs input_path output_path verbose)
      = None /\
    exists checkpoint tag items,
      torch_load fs input_path = inr checkpoint /\
      select_state_dict checkpoint = Some (tag, PyDict items) /\
      torch_load (files (convert_checkpoint fs input_path output_path verbose))
                 output_path
        = inr (PyDict (fst (convert_items items))))) /\
  (forall checkpoint tag items,
     torch_load fs input_path = inr checkpoint ->
     select_state_dict checkpoint = Some (tag, PyDict items) ->
     exit_status (convert_checkpoint fs input_path output_path verbose)
       = None) /\
  (forall p, p <> output_path ->
     fs_read (files (convert_checkpoint fs input_path output_path verbose)) p
     = fs_read fs p).
Proof.
  unfold convert_checkpoint.
  destruct (torch_load fs input_path) as [[p|e]|checkpoint] eqn:L.
  - split; [left; now split | split; [discriminate | now intros]].
  - split; [left; now split | split; [discriminate | now intros]].
  - destruct (select_state_dict checkpoint) as [[tag state_dict]|] eqn:S.
    + destruct state_dict as [items|t|c].
      * destruct (convert_items items) as [converted conversions] eqn:C.
        cbn [files exit_status]. split; [|split].
        -- right. split; [reflexivity|].
           exists checkpoint, tag, items. repeat split; trivial.
           unfold torch_load, torch_save. now rewrite fs_read_write_same, C.
        -- reflexivity.
        -- intros p N. now apply fs_read_write_other.
      * split; [left; now split
               | split; [intros ? ? ? [= <-]; congruence | now intros]].
      * split; [left; now split
               | split; [intros ? ? ? [= <-]; congruence | now intros]].
    + split; [left; now split
             | split; [intros ? ? ? [= <-]; congruence | now intros]].
Qed.

(** ** [convert_checkpoint]: the converted state dict *)

(** X8: when no two keys of the state dict are rewritten to the same
    name, the converted state dict is the input with every key renamed in
    place: the same number of items, in the same order, each with the tensor
    it had. *)
Theorem x8_injective_rename_in_place (tensor : Type) (items : dict tensor) :
  NoDup (map convert_parameter_name (dict_keys items)) ->
  fst (convert_items items) = map renamed items.
Proof.
  intros N. apply (convert_items_injective_fold items [] [] N).
Qed.

Lemma x8_injective_rename_witness :
  fst (convert_items
         [("wte.weight", @PyTensor nat 1);
          ("blocks.0.attn.q_proj.weight", PyTensor 2);
          ("ln_f.bias", PyTensor 3)])
  = [("_tokenEmbedding.weight", PyTensor 1);
     ("block_0._attn._qProj.weight", PyTensor 2);
     ("ln_f.bias", PyTensor 3)].
Proof.
  refine (eq_trans (x8_injective_rename_in_place nat _ _) _).
  - vm_compute. repeat constructor; simpl; intuition discriminate.
  - vm_compute. reflexivity.
Defined.

(** X9: looking a name up in the converted state dict gives the
    tensor of the last input item whose key is rewritten to that name, and
    nothing when no key is: on a collision the later item wins. *)
Theorem x9_last_item_wins (tensor : Type) (items : dict tensor) (n : string) :
  dict_get n (fst (convert_items items))
  = option_map snd
      (find (fun kv => String.eqb n (convert_parameter_name (fst kv)))
            (rev items)).
Proof.
  etransitivity; [exact (convert_items_lookup_fold items [] [] n)|].
  now destruct (find _ (rev items)).
Qed.

(** X10: the list of conversions holds exactly the keys that the
    rewrite changes, in input order, each with its new name. *)
Theorem x10_conversions_are_changed_keys (tensor : Type) (items : dict tensor) :
  snd (convert_items items) = reported items /\
  (forall o n, In (o, n) (snd (convert_items items))
               <-> In o (dict_keys items)
                   /\ n = convert_parameter_name o /\ o <> n).
Proof.
  assert (E : snd (convert_items items) = reported items)
    by apply (convert_items_report_fold items [] []).
  split; trivial. intros o n. rewrite E. unfold reported, dict_keys.
  rewrite in_map_iff. split.
  - intros ([k v] & [= <- <-] & H). apply filter_In in H as [H1 H2].
    cbn [fst] in *. apply negb_true_iff, String.eqb_neq in H2.
    repeat split; trivial. apply in_map_iff. now exists (k, v).
  - intros (H1 & -> & H3). apply in_map_iff in H1 as ([k v] & <- & H1).
    exists (k, v). split; trivial. apply filter_In. split; trivial.
    now apply negb_true_iff, String.eqb_neq.
Qed.

(** ** [convert_checkpoint]: the verbose mode *)

(** X11: the verbose flag changes the console only.  The files and
    the exit status of a run do not depend on it, and on a successful run
    the verbose console is the plain one with the listing of the renamed
    keys put in after its fourth line: nothing when no key was renamed, and
    otherwise a heading and one line for each renamed key. *)
Theorem x11_verbose_only_adds_listing (tensor : Type) (fs : filesystem tensor)
    (input_path output_path : string) :
  files (convert_checkpoint fs input_path output_path true)
    = files (convert_checkpoint fs input_path output_path false) /\
  exit_status (convert_checkpoint fs input_path output_path true)
    = exit_status (convert_checkpoint fs input_path output_path false) /\
  (forall checkpoint tag items,
     torch_load fs input_path = inr checkpoint ->
     select_state_dict checkpoint = Some (tag, PyDict items) ->
     stdout (convert_checkpoint fs input_path output_path true)
     = (firstn 4 (stdout (convert_checkpoint fs input_path output_path false))
        ++ listing (reported items)
        ++ skipn 4 (stdout (convert_checkpoint fs input_path output_path false))
       )%list).
Proof.
  unfold convert_checkpoint.
  destruct (torch_load fs input_path) as [[p|e]|checkpoint] eqn:L;
    [repeat split; intros; try reflexivity; congruence ..|].
  destruct (select_state_dict checkpoint) as [[tag state_dict]|] eqn:S;
    [|repeat split; intros; try reflexivity; congruence].
  destruct state_dict as [items|t|c];
    [|repeat split; intros; try reflexivity; congruence ..].
  assert (R : snd (convert_items items) = reported items)
    by exact (convert_items_report_fold items [] []).
  destruct (convert_items items) as [converted conversions].
  cbn [snd] in R. subst conversions.
  repeat split.
  intros checkpoint' tag' items' [= <-] S'. rewrite S in S'.
  injection S' as <- <-.
  cbn [stdout]. unfold print at 1 2 3 4 5 6 7 8 9 10 11 12.
  cbn [app firstn skipn andb]. unfold listing.
  destruct (reported items) as [|c0 cs]; [reflexivity|].
  cbn [List.length Nat.eqb negb]. rewrite fold_print.
  unfold print. now rewrite <- !app_assoc.
Qed.

(** ** [convert_checkpoint]: converting a converted checkpoint *)

Lemma convert_checkpoint_success (tensor : Type) (fs : filesystem tensor)
    (input_path output_path : string) (verbose : bool)
    (checkpoint : pyobj tensor) (tag : shape_tag) (items : dict tensor) :
  torch_load fs input_path = inr checkpoint ->
  select_state_dict checkpoint = Some (tag, PyDict items) ->
  convert_checkpoint fs input_path output_path verbose
  = {| stdout :=
         List.app
           ["Loading checkpoint from " ++ input_path ++ "...";
            shape_message tag;
            newline ++ "Converted " ++ str_of_nat (List.length items)
              ++ " parameters";
            "Renamed " ++ str_of_nat (List.length (reported items))
              ++ " parameters"]
           (List.app
              (if verbose then listing (reported items) else [])
              [newline ++ "Saving converted checkpoint to "
                 ++ output_path ++ "...";
               "✓ Conversion complete!"]);
       exit_status := None;
       files := torch_save fs (PyDict (fst (convert_items items)))
                           output_path |}.
Proof.
  intros L S. unfold convert_checkpoint. rewrite L, S.
  assert (R : snd (convert_items items) = reported items)
    by exact (convert_items_report_fold items [] []).
  destruct (convert_items items) as [converted conversions].
  cbn [snd fst] in *. subst conversions. f_equal.
  unfold print at 1 2 3 4 5 6 7 8 9 10 11 12. cbn [app].
  unfold listing. destruct verbose; cbn [andb].
  - destruct (reported items) as [|c0 cs]; [reflexivity|].
    cbn [List.length Nat.eqb negb]. rewrite fold_print.
    unfold print. now rewrite <- !app_assoc.
  - reflexivity.
Qed.

Lemma converted_keys_fixed (tensor : Type) (items : dict tensor) :
  (forall k, In k (dict_keys items) -> no_repeated_fragment k = true) ->
  NoDup (dict_keys (fst (convert_items items))) /\
  forall k, In k (dict_keys (fst (convert_items items))) ->
            convert_parameter_name k = k.
Proof.
  intros H. rewrite convert_items_keys. split.
  - apply add_keys_NoDup. constructor.
  - intros k Hk. apply add_keys_In in Hk as [[]|Hk].
    apply in_map_iff in Hk as (k0 & <- & Hk0).
    now apply idempotent_when_infix_free, converted_infix_free, H.
Qed.

(** X12: converting the output of a conversion changes nothing.  When
    no key of the state dict holds an infix source fragment twice in a row
    and no converted key is [model] or [state_dict], a second run on the
    file written by the first reads it as a flat state dict, renames no
    key and writes the same state dict again. *)
Theorem x12_reconversion_changes_nothing (tensor : Type)
    (fs : filesystem tensor) (input_path output_path output_path2 : string)
    (verbose verbose2 : bool) (checkpoint : pyobj tensor) (tag : shape_tag)
    (items : dict tensor) :
  torch_load fs input_path = inr checkpoint ->
  select_state_dict checkpoint = Some (tag, PyDict items) ->
  (forall k, In k (dict_keys items) -> no_repeated_fragment k = true) ->
  dict_contains "model" (fst (convert_items items)) = false ->
  dict_contains "state_dict" (fst (convert_items items)) = false ->
  convert_checkpoint
    (files (convert_checkpoint fs input_path output_path verbose))
    output_path output_path2 verbose2
  = {| stdout :=
         ["Loading checkpoint from " ++ output_path ++ "...";
          "Loaded state dict directly";
          newline ++ "Converted "
            ++ str_of_nat (List.length (fst (convert_items items)))
            ++ " parameters";
          "Renamed 0 parameters";
          newline ++ "Saving converted checkpoint to "
            ++ output_path2 ++ "...";
          "✓ Conversion complete!"];
       exit_status := None;
       files := torch_save
                  (torch_save fs (PyDict (fst (convert_items items)))
                              output_path)
                  (PyDict (fst (convert_items items))) output_path2 |}.
Proof.
  intros L S F M1 M2.
  rewrite (convert_checkpoint_success _ _ _ _ _ _ _ _ L S). cbn [files].
  set (conv := fst (convert_items items)) in *.
  destruct (converted_keys_fixed _ items F) as [N Fix]. fold conv in N, Fix.
  assert (E : convert_items conv = (conv, [])).
  { apply (convert_items_fixed_fold conv [] []); trivial. }
  assert (L2 : torch_load (torch_save fs (PyDict conv) output_path) output_path
               = inr (PyDict conv)).
  { unfold torch_load, torch_save. now rewrite fs_read_write_same. }
  assert (S2 : select_state_dict (PyDict conv) = Some (Flat, PyDict conv)).
  { apply dict_get_absent in M1, M2. simpl. now rewrite M1, M2. }
  rewrite (convert_checkpoint_success _ _ _ _ _ _ _ _ L2 S2).
  assert (R : reported conv = []).
  { assert (R : snd (convert_items conv) = reported conv)
      by exact (convert_items_report_fold conv [] []).
    now rewrite E in R. }
  rewrite R, E. cbn [fst listing app List.length]. now destruct verbose2.
Qed.

Lemma x12_reconversion_witness :
  let fs : filesystem nat :=
    [("in.pt", Pickle (PyDict [("model",
        PyDict [("wte.weight", PyTensor 1);
                ("blocks.3.mlp.fc1.bias", PyTensor 2)])]))] in
  torch_load
    (files (convert_checkpoint
              (files (convert_checkpoint fs "in.pt" "out.dat" false))
              "out.dat" "again.dat" true))
    "again.dat"
  = inr (PyDict [("_tokenEmbedding.weight", PyTensor 1);
                 ("block_3._mlp._fc1.bias", PyTensor 2)]).
Proof.
  intros fs.
  rewrite (x12_reconversion_changes_nothing nat fs "in.pt" "out.dat"
             "again.dat" false true
             (PyDict [("model",
                PyDict [("wte.weight", PyTensor 1);
                        ("blocks.3.mlp.fc1.bias", PyTensor 2)])])
             ViaModel
             [("wte.weight", PyTensor 1);
              ("blocks.3.mlp.fc1.bias", PyTensor 2)]).
  - vm_compute. reflexivity.
  - reflexivity.
  - reflexivity.
  - intros k [<-|[<-|[]]]; vm_compute; reflexivity.
  - vm_compute. reflexivity.
  - vm_compute. reflexivity.
Defined.

(** ** [verify_forward_pass]: the runs *)

Section VerifyRuns.

Context {tensor : Type}.
Variable torch : torch_library tensor.

Ltac run_script :=
  unfold verify_forward_pass, verify_body, save_tensors, create_test_input,
    bind, py_print, py_load, manual_seed, torch_randint, torch_randn, draw,
    makedirs, py_save, py_sample, ret, raise, set_gen;
  cbn [gen console disk saved fst snd].

Lemma verify_run_load_failure (checkpoint_path output_dir : string)
    (seq_len : Z) (w : world torch) (e : exn) :
  torch_load (disk w) checkpoint_path = inl e ->
  verify_forward_pass torch checkpoint_path output_dir seq_len w
  = (Some 1%Z,
     @Build_world _ torch (gen w)
       (List.app (console w)
          ["Loading checkpoint from " ++ checkpoint_path ++ "...";
           "Error: " ++ exn_message e])
       (disk w) (saved w)).
Proof.
  intros L. run_script. rewrite L. cbn [gen console disk saved fst snd].
  unfold print. now rewrite <- app_assoc.
Qed.

Lemma verify_run_success (checkpoint_path output_dir : string)
    (seq_len : Z) (w : world torch) (checkpoint : pyobj tensor)
    (input_ids logits : tensor) (g1 g2 : generator torch)
    (sample1 sample2 : string) :
  torch_load (disk w) checkpoint_path = inr checkpoint ->
  output_dir <> "" ->
  randint torch 0 32768 [1%Z; seq_len] (seed_generator torch 42)
    = inr (input_ids, g1) ->
  randn torch [1%Z; seq_len; 32768%Z] g1 = inr (logits, g2) ->
  sample_repr torch input_ids [At 0; UpTo 5] = inr sample1 ->
  sample_repr torch logits [At 0; At 0; UpTo 5] = inr sample2 ->
  verify_forward_pass torch checkpoint_path output_dir seq_len w
  = (None,
     @Build_world _ torch g2
       (console w
        ++ verify_console torch checkpoint_path output_dir input_ids logits
                          sample1 sample2)%list
       (with_fixtures (disk w) output_dir input_ids logits)
       (saved w
        ++ [(path_join output_dir "test_input.pt", PyTensor input_ids);
            (path_join output_dir "expected_output.pt", PyTensor logits)])%list).
Proof.
  intros L D R1 R2 S1 S2. apply String.eqb_neq in D.
  run_script. rewrite L. cbn [gen console disk saved fst snd].
  rewrite R1. cbn [gen console disk saved fst snd].
  rewrite R2. cbn [gen console disk saved fst snd].
  rewrite D. cbn [gen console disk saved fst snd].
  rewrite S1. cbn [gen console disk saved fst snd].
  rewrite S2. cbn [gen console disk saved fst snd].
  unfold print, verify_console, with_fixtures.
  now rewrite <- !app_assoc.
Qed.

End VerifyRuns.

Section FixtureFiles.

Context {tensor : Type}.
Implicit Types (fs : filesystem tensor).

Lemma fixture_paths_differ (output_dir : string) :
  path_join output_dir "test_input.pt"
  <> path_join output_dir "expected_output.pt".
Proof. intros E. now apply path_join_inj in E. Qed.

Lemma with_fixtures_input fs (output_dir : string) (input_ids logits : tensor) :
  torch_load (with_fixtures fs output_dir input_ids logits)
             (path_join output_dir "test_input.pt")
  = inr (PyTensor input_ids).
Proof.
  unfold torch_load, with_fixtures, torch_save.
  rewrite fs_read_write_other by apply fixture_paths_differ.
  now rewrite fs_read_write_same.
Qed.

Lemma with_fixtures_output fs (output_dir : string) (input_ids logits : tensor) :
  torch_load (with_fixtures fs output_dir input_ids logits)
             (path_join output_dir "expected_output.pt")
  = inr (PyTensor logits).
Proof.
  unfold torch_load, with_fixtures, torch_save.
  now rewrite fs_read_write_same.
Qed.

Lemma with_fixtures_other fs (output_dir p : string) (input_ids logits : tensor) :
  p <> path_join output_dir "test_input.pt" ->
  p <> path_join output_dir "expected_output.pt" ->
  fs_read (with_fixtures fs output_dir input_ids logits) p = fs_read fs p.
Proof.
  intros N1 N2. unfold with_fixtures, torch_save.
  now rewrite !fs_read_write_other.
Qed.

Lemma filter_twice {A} (f g : A -> bool) (l : list A) :
  filter f (filter g (filter f (filter g l))) = filter f (filter g l).
Proof.
  induction l as [|a l IH]; trivial.
  cbn [filter]. destruct (g a) eqn:G; cbn [filter]; trivial.
  destruct (f a) eqn:F; cbn [filter]; trivial.
  rewrite G. cbn [filter]. rewrite F. now rewrite IH.
Qed.

(** Saving the same two fixtures again leaves the file system as it is. *)
Lemma with_fixtures_again fs (output_dir : string) (input_ids logits : tensor) :
  with_fixtures (with_fixtures fs output_dir input_ids logits)
                output_dir input_ids logits
  = with_fixtures fs output_dir input_ids logits.
Proof.
  pose proof (fixture_paths_differ output_dir) as N.
  unfold with_fixtures, torch_save, fs_write.
  set (a := path_join output_dir "test_input.pt") in *.
  set (b := path_join output_dir "expected_output.pt") in *.
  assert (Nab : String.eqb a b = false) by now apply String.eqb_neq.
  assert (Nba : String.eqb b a = false) by now rewrite String.eqb_sym.
  do 4 (cbn [filter fst negb]; rewrite ?String.eqb_refl, ?Nab, ?Nba).
  cbn [filter fst negb]. now rewrite filter_twice.
Qed.

End FixtureFiles.

Section VerifyOutcomes.

Context {tensor : Type}.
Variable torch : torch_library tensor.

Ltac run_script :=
  unfold verify_forward_pass, verify_body, save_tensors, create_test_input,
    bind, py_print, py_load, manual_seed, torch_randint, torch_randn, draw,
    makedirs, py_save, py_sample, ret, raise, set_gen;
  cbn [gen console disk saved fst snd].

(** The exit status of a run on a checkpoint that loads. *)
Lemma verify_status (checkpoint_path output_dir : string) (seq_len : Z)
    (w : world torch) (checkpoint : pyobj tensor) :
  torch_load (disk w) checkpoint_path = inr checkpoint ->
  fst (verify_forward_pass torch checkpoint_path output_dir seq_len w)
  = match randint torch 0 32768 [1%Z; seq_len] (seed_generator torch 42) with
    | inl _ => Some 1%Z
    | inr (input_ids, g1) =>
        match randn torch [1%Z; seq_len; 32768%Z] g1 with
        | inl _ => Some 1%Z
        | inr (logits, _) =>
            if String.eqb output_dir "" then Some 1%Z
            else
              match sample_repr torch input_ids [At 0; UpTo 5],
                    sample_repr torch logits [At 0; At 0; UpTo 5] with
              | inr _, inr _ => None
              | _, _ => Some 1%Z
              end
        end
    end.
Proof.
  intros L. run_script. rewrite L. cbn [gen console disk saved fst snd].
  destruct (randint _ _ _ _ _) as [m|[input_ids g1]]; trivial.
  cbn [gen console disk saved fst snd].
  destruct (randn _ _ _) as [m|[logits g2]]; trivial.
  cbn [gen console disk saved fst snd].
  destruct (String.eqb output_dir ""); trivial.
  cbn [gen console disk saved fst snd].
  destruct (sample_repr _ input_ids _); trivial.
  cbn [gen console disk saved fst snd].
  now destruct (sample_repr _ logits _).
Qed.

(** The file system after a run: as before, or with the two fixtures. *)
Lemma verify_disk (checkpoint_path output_dir : string) (seq_len : Z)
    (w : world torch) :
  disk (snd (verify_forward_pass torch checkpoint_path output_dir seq_len w))
    = disk w
  \/ exists input_ids logits,
       disk (snd (verify_forward_pass torch checkpoint_path output_dir
                    seq_len w))
       = with_fixtures (disk w) output_dir input_ids logits.
Proof.
  run_script.
  destruct (torch_load _ _) as [e|checkpoint]; [now left|].
  cbn [gen console disk saved fst snd].
  destruct (randint _ _ _ _ _) as [m|[input_ids g1]]; [now left|].
  cbn [gen console disk saved fst snd].
  destruct (randn _ _ _) as [m|[logits g2]]; [now left|].
  cbn [gen console disk saved fst snd].
  destruct (String.eqb output_dir ""); [now left|].
  cbn [gen console disk saved fst snd].
  right. exists input_ids, logits.
  destruct (sample_repr _ input_ids _); cbn [gen console disk saved fst snd];
    [reflexivity|].
  now destruct (sample_repr _ logits _).
Qed.

(** X13: when the checkpoint does not load, the run prints the load
    line and the error, exits with status 1, and leaves the generator, the
    file system and the save log as they were. *)
Theorem x13_verify_load_failure (checkpoint_path output_dir : string)
    (seq_len : Z) (w : world torch) (e : exn) :
  torch_load (disk w) checkpoint_path = inl e ->
  fst (verify_forward_pass torch checkpoint_path output_dir seq_len w)
    = Some 1%Z /\
  console (snd (verify_forward_pass torch checkpoint_path output_dir seq_len w))
    = List.app (console w)
        ["Loading checkpoint from " ++ checkpoint_path ++ "...";
         "Error: " ++ exn_message e] /\
  gen (snd (verify_forward_pass torch checkpoint_path output_dir seq_len w))
    = gen w /\
  disk (snd (verify_forward_pass torch checkpoint_path output_dir seq_len w))
    = disk w /\
  saved (snd (verify_forward_pass torch checkpoint_path output_dir seq_len w))
    = saved w.
Proof.
  intros L. rewrite (verify_run_load_failure _ _ _ _ _ _ L).
  repeat split.
Qed.

(** X14: on a run that succeeds the two fixture files load back as
    the tensors that were drawn, every other file is as it was, the
    generator is left in the state after the two draws, and the exit status
    is that of a normal return. *)
Theorem x14_verify_success_round_trip (checkpoint_path output_dir : string)
    (seq_len : Z) (w : world torch) (checkpoint : pyobj tensor)
    (input_ids logits : tensor) (g1 g2 : generator torch)
    (sample1 sample2 : string) :
  torch_load (disk w) checkpoint_path = inr checkpoint ->
  output_dir <> "" ->
  randint torch 0 32768 [1%Z; seq_len] (seed_generator torch 42)
    = inr (input_ids, g1) ->
  randn torch [1%Z; seq_len; 32768%Z] g1 = inr (logits, g2) ->
  sample_repr torch input_ids [At 0; UpTo 5] = inr sample1 ->
  sample_repr torch logits [At 0; At 0; UpTo 5] = inr sample2 ->
  fst (verify_forward_pass torch checkpoint_path output_dir seq_len w) = None /\
  torch_load
    (disk (snd (verify_forward_pass torch checkpoint_path output_dir seq_len w)))
    (path_join output_dir "test_input.pt") = inr (PyTensor input_ids) /\
  torch_load
    (disk (snd (verify_forward_pass torch checkpoint_path output_dir seq_len w)))
    (path_join output_dir "expected_output.pt") = inr (PyTensor logits) /\
  (forall p, p <> path_join output_dir "test_input.pt" ->
             p <> path_join output_dir "expected_output.pt" ->
     fs_read (disk (snd (verify_forward_pass torch checkpoint_path output_dir
                           seq_len w))) p
     = fs_read (disk w) p) /\
  gen (snd (verify_forward_pass torch checkpoint_path output_dir seq_len w))
    = g2.
Proof.
  intros L D R1 R2 S1 S2.
  rewrite (verify_run_success _ _ _ _ _ _ _ _ _ _ _ _ L D R1 R2 S1 S2).
  cbn [fst snd disk gen]. repeat split.
  - apply with_fixtures_input.
  - apply with_fixtures_output.
  - intros p N1 N2. now apply with_fixtures_other.
Qed.

(** X15: a run on a checkpoint that loads returns normally exactly
    when the output directory is not the empty path, both draws succeed and
    both samples can be rendered; in every other case it exits with
    status 1.  (Directories are implicit in the file system of the model and
    a save succeeds, so these are the only steps that can fail.) *)
Theorem x15_verify_exit_status (checkpoint_path output_dir : string)
    (seq_len : Z) (w : world torch) (checkpoint : pyobj tensor) :
  torch_load (disk w) checkpoint_path = inr checkpoint ->
  (fst (verify_forward_pass torch checkpoint_path output_dir seq_len w) = None
   <-> output_dir <> "" /\
       exists input_ids g1 logits g2 sample1 sample2,
         randint torch 0 32768 [1%Z; seq_len] (seed_generator torch 42)
           = inr (input_ids, g1) /\
         randn torch [1%Z; seq_len; 32768%Z] g1 = inr (logits, g2) /\
         sample_repr torch input_ids [At 0; UpTo 5] = inr sample1 /\
         sample_repr torch logits [At 0; At 0; UpTo 5] = inr sample2) /\
  (fst (verify_forward_pass torch checkpoint_path output_dir seq_len w) = None
   \/ fst (verify_forward_pass torch checkpoint_path output_dir seq_len w)
      = Some 1%Z).
Proof.
  intros L. rewrite (verify_status _ _ _ _ _ L). split; [split|].
  - destruct (randint _ _ _ _ _) as [m|[input_ids g1]] eqn:R1; [discriminate|].
    destruct (randn _ _ _) as [m|[logits g2]] eqn:R2; [discriminate|].
    destruct (String.eqb_spec output_dir ""); [discriminate|].
    destruct (sample_repr _ input_ids _) as [m|s1] eqn:S1; [discriminate|].
    destruct (sample_repr _ logits _) as [m|s2] eqn:S2; [discriminate|].
    intros _. split; trivial. now exists input_ids, g1, logits, g2, s1, s2.
  - intros (D & i & g1 & l & g2 & s1 & s2 & R1 & R2 & S1 & S2).
    rewrite R1, R2, S1, S2. apply String.eqb_neq in D. now rewrite D.
  - destruct (randint _ _ _ _ _) as [m|[input_ids g1]]; [now right|].
    destruct (randn _ _ _) as [m|[logits g2]]; [now right|].
    destruct (String.eqb output_dir ""); [now right|].
    destruct (sample_repr _ input_ids _); [now right|].
    destruct (sample_repr _ logits _); [now right | now left].
Qed.

(** X16: the fixtures are saved before anything about them is
    printed.  When rendering a sample fails after both draws succeeded, the
    run exits with status 1 although both fixture files have been written
    and load back. *)
Theorem x16_verify_late_failure_keeps_files
    (checkpoint_path output_dir : string) (seq_len : Z) (w : world torch)
    (checkpoint : pyobj tensor) (input_ids logits : tensor)
    (g1 g2 : generator torch) :
  torch_load (disk w) checkpoint_path = inr checkpoint ->
  output_dir <> "" ->
  randint torch 0 32768 [1%Z; seq_len] (seed_generator torch 42)
    = inr (input_ids, g1) ->
  randn torch [1%Z; seq_len; 32768%Z] g1 = inr (logits, g2) ->
  (forall s1 s2,
     sample_repr torch input_ids [At 0; UpTo 5] = inr s1 ->
     sample_repr torch logits [At 0; At 0; UpTo 5] = inr s2 -> False) ->
  fst (verify_forward_pass torch checkpoint_path output_dir seq_len w)
    = Some 1%Z /\
  torch_load
    (disk (snd (verify_forward_pass torch checkpoint_path output_dir seq_len w)))
    (path_join output_dir "test_input.pt") = inr (PyTensor input_ids) /\
  torch_load
    (disk (snd (verify_forward_pass torch checkpoint_path output_dir seq_len w)))
    (path_join output_dir "expected_output.pt") = inr (PyTensor logits).
Proof.
  intros L D R1 R2 F. apply String.eqb_neq in D. split.
  - rewrite (verify_status _ _ _ _ _ L), R1, R2, D.
    destruct (sample_repr _ input_ids _) as [m|s1]; trivial.
    destruct (sample_repr _ logits _) as [m|s2]; trivial.
    now elim (F s1 s2).
  - assert (E : disk (snd (verify_forward_pass torch checkpoint_path
                             output_dir seq_len w))
                = with_fixtures (disk w) output_dir input_ids logits).
    { run_script. rewrite L. cbn [gen console disk saved fst snd].
      rewrite R1. cbn [gen console disk saved fst snd].
      rewrite R2. cbn [gen console disk saved fst snd].
      rewrite D. cbn [gen console disk saved fst snd].
      destruct (sample_repr _ input_ids _);
        cbn [gen console disk saved fst snd]; [reflexivity|].
      now destruct (sample_repr _ logits _). }
    rewrite E. split; [apply with_fixtures_input | apply with_fixtures_output].
Qed.

(** X17: whatever happens in a run, no file other than the two
    fixture files of the output directory is changed. *)
Theorem x17_verify_touches_only_fixtures (checkpoint_path output_dir : string)
    (seq_len : Z) (w : world torch) (p : string) :
  p <> path_join output_dir "test_input.pt" ->
  p <> path_join output_dir "expected_output.pt" ->
  fs_read (disk (snd (verify_forward_pass torch checkpoint_path output_dir
                        seq_len w))) p
  = fs_read (disk w) p.
Proof.
  intros N1 N2.
  destruct (verify_disk checkpoint_path output_dir seq_len w)
    as [->|(i & l & ->)]; trivial.
  now apply with_fixtures_other.
Qed.

(** X18: running the script again on the same checkpoint, with the
    same output directory and sequence length, succeeds again and leaves
    the file system exactly as the first run left it, provided the
    checkpoint is not one of the two fixture files. *)
Theorem x18_verify_rerun_same_disk (checkpoint_path output_dir : string)
    (seq_len : Z) (w : world torch) (checkpoint : pyobj tensor)
    (input_ids logits : tensor) (g1 g2 : generator torch)
    (sample1 sample2 : string) :
  torch_load (disk w) checkpoint_path = inr checkpoint ->
  output_dir <> "" ->
  randint torch 0 32768 [1%Z; seq_len] (seed_generator torch 42)
    = inr (input_ids, g1) ->
  randn torch [1%Z; seq_len; 32768%Z] g1 = inr (logits, g2) ->
  sample_repr torch input_ids [At 0; UpTo 5] = inr sample1 ->
  sample_repr torch logits [At 0; At 0; UpTo 5] = inr sample2 ->
  checkpoint_path <> path_join output_dir "test_input.pt" ->
  checkpoint_path <> path_join output_dir "expected_output.pt" ->
  fst (verify_forward_pass torch checkpoint_path output_dir seq_len
         (snd (verify_forward_pass torch checkpoint_path output_dir seq_len w)))
    = None /\
  disk (snd (verify_forward_pass torch checkpoint_path output_dir seq_len
               (snd (verify_forward_pass torch checkpoint_path output_dir
                       seq_len w))))
  = disk (snd (verify_forward_pass torch checkpoint_path output_dir seq_len w)).
Proof.
  intros L D R1 R2 S1 S2 N1 N2.
  rewrite (verify_run_success _ _ _ _ _ _ _ _ _ _ _ _ L D R1 R2 S1 S2).
  cbn [snd].
  match goal with |- context [verify_forward_pass _ _ _ _ ?w1] =>
    assert (L' : torch_load (disk w1) checkpoint_path = inr checkpoint)
  end.
  { cbn [disk]. unfold torch_load in *.
    now rewrite with_fixtures_other. }
  rewrite (verify_run_success _ _ _ _ _ _ _ _ _ _ _ _ L' D R1 R2 S1 S2).
  cbn [fst snd disk]. split; trivial. apply with_fixtures_again.
Qed.

End VerifyOutcomes.

Lemma x13_verify_load_failure_witness :
  fst (verify_forward_pass lcg_torch "missing.pt" "out" 16
         (lcg_world 7 [] [])) = Some 1%Z.
Proof.
  exact (proj1 (x13_verify_load_failure lcg_torch "missing.pt" "out" 16%Z
                  (lcg_world 7 [] []) (FileNotFoundError "missing.pt")
                  eq_refl)).
Defined.

Lemma x14_verify_success_witness :
  fst (verify_forward_pass lcg_torch "a.pt" "out" 16
         (lcg_world 7 [] [("a.pt", Pickle (PyDict []))])) = None.
Proof.
  exact (proj1 (x14_verify_success_round_trip lcg_torch "a.pt" "out" 16%Z
                  (lcg_world 7 [] [("a.pt", Pickle (PyDict []))]) (PyDict [])
                  ([1; 16]%Z, 42%Z) ([1; 16; 32768]%Z, lcg_next 42)
                  (lcg_next 42) (lcg_next (lcg_next 42)) "[...]" "[...]"
                  eq_refl ltac:(discriminate) eq_refl eq_refl eq_refl
                  eq_refl)).
Defined.

Lemma x15_verify_exit_status_witness :
  fst (verify_forward_pass lcg_torch "a.pt" "" 16
         (lcg_world 7 [] [("a.pt", Pickle (PyDict []))])) = None
  \/ fst (verify_forward_pass lcg_torch "a.pt" "" 16
            (lcg_world 7 [] [("a.pt", Pickle (PyDict []))])) = Some 1%Z.
Proof.
  exact (proj2 (x15_verify_exit_status lcg_torch "a.pt" "" 16%Z
                  (lcg_world 7 [] [("a.pt", Pickle (PyDict []))]) (PyDict [])
                  eq_refl)).
Defined.

Lemma x16_verify_late_failure_witness :
  fst (verify_forward_pass lcg_torch "a.pt" "out" 0
         (lcg_world 7 [] [("a.pt", Pickle (PyDict []))])) = Some 1%Z /\
  torch_load
    (disk (snd (verify_forward_pass lcg_torch "a.pt" "out" 0
                  (lcg_world 7 [] [("a.pt", Pickle (PyDict []))]))))
    "out/test_input.pt" = inr (PyTensor ([1; 0]%Z, 42%Z)).
Proof.
  destruct (x16_verify_late_failure_keeps_files lcg_torch "a.pt" "out" 0%Z
              (lcg_world 7 [] [("a.pt", Pickle (PyDict []))]) (PyDict [])
              ([1; 0]%Z, 42%Z) ([1; 0; 32768]%Z, lcg_next 42)
              (lcg_next 42) (lcg_next (lcg_next 42))
              eq_refl ltac:(discriminate) eq_refl eq_refl
              ltac:(intros s1 s2 H; discriminate H)) as (H1 & H2 & _).
  split; [exact H1 | exact H2].
Defined.

Lemma x17_verify_touches_only_fixtures_witness :
  fs_read
    (disk (snd (verify_forward_pass lcg_torch "a.pt" "out" 16
                  (lcg_world 7 [] [("a.pt", Pickle (PyDict []))]))))
    "a.pt"
  = Some (Pickle (PyDict [])).
Proof.
  exact (x17_verify_touches_only_fixtures lcg_torch "a.pt" "out" 16%Z
           (lcg_world 7 [] [("a.pt", Pickle (PyDict []))]) "a.pt"
           ltac:(discriminate) ltac:(discriminate)).
Defined.

Lemma x18_verify_rerun_witness :
  disk (snd (verify_forward_pass lcg_torch "a.pt" "out" 16
               (snd (verify_forward_pass lcg_torch "a.pt" "out" 16
                       (lcg_world 7 [] [("a.pt", Pickle (PyDict []))])))))
  = disk (snd (verify_forward_pass lcg_torch "a.pt" "out" 16
                 (lcg_world 7 [] [("a.pt", Pickle (PyDict []))]))).
Proof.
  exact (proj2 (x18_verify_rerun_same_disk lcg_torch "a.pt" "out" 16%Z
                  (lcg_world 7 [] [("a.pt", Pickle (PyDict []))]) (PyDict [])
                  ([1; 16]%Z, 42%Z) ([1; 16; 32768]%Z, lcg_next 42)
                  (lcg_next 42) (lcg_next (lcg_next 42)) "[...]" "[...]"
                  eq_refl ltac:(discriminate) eq_refl eq_refl eq_refl
                  eq_refl ltac:(discriminate) ltac:(discriminate))).
Defined.
